(** * llama.cpp client: content builder, single-query executor, dispatchers

    A shallow embedding of [backend/llamacpp.py].

    - Python values that travel as JSON (message contents, payloads,
      response bodies, result dicts) are the inductive [value]; a dict is a
      finite map from strings.
    - A call that may raise returns a [result]; [try ... except] is a match
      on the raised exception.
    - The network is a parameter: a [transport] says, for a timeout and a
      request, how long the exchange takes and how it ends.  Every call
      records the requests it sends.
    - Logging changes neither results nor requests.  The logger calls of
      the executor are modelled apart, in [query_model_log]; those of the
      dispatchers, which print clock readings, are not modelled. *)

From stdpp Require Import gmap strings list fin_maps sorting pretty.

Set Warnings "-register-all,-clear-no-such-hyp".

(** ** Python values *)

(** [None], [bool], [int], [float] (held by its repr), [str], [list] and
    [dict] with string keys: what [json] reads and writes. *)
Inductive value : Type :=
| VNone
| VBool (b : bool)
| VInt (n : Z)
| VFloat (repr : string)
| VStr (s : string)
| VList (items : list value)
| VDict (entries : gmap string value).

(** A number as [f'{x}'] prints it: an int in decimal, a float by its repr. *)
Inductive number : Type :=
| Int (n : Z)
| Float (repr : string).

Definition format_number (x : number) : string :=
  match x with
  | Int n => pretty n
  | Float repr => repr
  end.

(** [s[:n]] on a string. *)
Fixpoint str_prefix (n : nat) (s : string) : string :=
  match n, s with
  | S n', String c s' => String c (str_prefix n' s')
  | _, _ => EmptyString
  end.

(** ** HTTP responses and exceptions *)

Record Response : Type := mkResponse {
  status_code : Z;
  text : string
}.

(** The exceptions a request attempt can end in: the three httpx classes the
    executor names, the interpreter's errors on a badly shaped body, and any
    other class derived from [Exception].  What [str] gives on one of them is
    the interpreter's business and a parameter below.  Cancellation and
    interpreter exit are not outcomes of a request and are outside this
    model. *)
Inductive exn : Type :=
| ConnectError (msg : string)
| HTTPStatusError (response : Response)
| TimeoutException (msg : string)
| JSONDecodeError (doc : string)
| KeyError (key : value)
| IndexError
| TypeError
| AttributeError
| OtherException (class_name msg : string).

Inductive result (A : Type) : Type :=
| Ok (a : A)
| Raise (e : exn).
Arguments Ok {A} a.
Arguments Raise {A} e.

#[export] Instance result_ret : MRet result := fun A a => Ok a.
#[export] Instance result_bind : MBind result := fun A B f m =>
  match m with
  | Ok a => f a
  | Raise e => Raise e
  end.

(** ** Subscripts and [dict.get] *)

Inductive subscript : Type :=
| Key (k : string)
| Index (i : Z).

(** Position of index [i] in a sequence of length [len], Python style:
    negative indices count from the end. *)
Definition seq_position (len : nat) (i : Z) : option nat :=
  let j := if (i <? 0)%Z then (i + Z.of_nat len)%Z else i in
  if ((0 <=? j) && (j <? Z.of_nat len))%Z then Some (Z.to_nat j) else None.

Fixpoint str_at (s : string) (n : nat) : option string :=
  match s, n with
  | EmptyString, _ => None
  | String c _, O => Some (String c EmptyString)
  | String _ s', S n' => str_at s' n'
  end.

(** [obj[k]] *)
Definition getitem (obj : value) (k : subscript) : result value :=
  match obj, k with
  | VDict d, Key s =>
      match d !! s with
      | Some v => Ok v
      | None => Raise (KeyError (VStr s))
      end
  | VDict _, Index i => Raise (KeyError (VInt i))
  | VList l, Index i =>
      match seq_position (length l) i with
      | Some n =>
          match l !! n with
          | Some v => Ok v
          | None => Raise IndexError
          end
      | None => Raise IndexError
      end
  | VList _, Key _ => Raise TypeError
  | VStr s, Index i =>
      match seq_position (String.length s) i with
      | Some n =>
          match str_at s n with
          | Some c => Ok (VStr c)
          | None => Raise IndexError
          end
      | None => Raise IndexError
      end
  | VStr _, Key _ => Raise TypeError
  | _, _ => Raise TypeError
  end.

(** [obj.get(k)]: only a dict has the method. *)
Definition method_get (obj : value) (k : string) : result value :=
  match obj with
  | VDict d => Ok (default VNone (d !! k))
  | _ => Raise AttributeError
  end.

(** ** Content builder *)

(** An image as the caller passes it: [Dict[str, str]]. *)
Abbreviation image := (gmap string string).

(** [image["content"]] *)
Definition image_getitem (img : image) (k : string) : result string :=
  match img !! k with
  | Some v => Ok v
  | None => Raise (KeyError (VStr k))
  end.

Definition text_part (txt : string) : value :=
  VDict {[ "type" := VStr "text"; "text" := VStr txt ]}.

Definition image_url_part (uri : string) : value :=
  VDict {[ "type" := VStr "image_url";
           "image_url" := VDict {[ "url" := VStr uri ]} ]}.

(** The [for image in images: content.append(...)] loop. *)
Fixpoint append_images (content : list value) (images : list image)
  : result (list value) :=
  match images with
  | [] => Ok content
  | img :: rest =>
      uri ← image_getitem img "content";
      append_images (content ++ [image_url_part uri]) rest
  end.

Definition build_message_content (txt : string) (images : option (list image))
  : result value :=
  match images with
  | None | Some [] => Ok (VStr txt)
  | Some imgs =>
      content ← append_images [text_part txt] imgs;
      Ok (VList content)
  end.

(** An image record as the docstring describes it: a dict with ['content']
    and ['filename']. *)
Definition image_record (img : image) : Prop :=
  is_Some (img !! "content") ∧ is_Some (img !! "filename").

(** The part of the output that stands for image [img]. *)
Definition image_ref (img : image) (part : value) : Prop :=
  ∃ uri, img !! "content" = Some uri ∧ part = image_url_part uri.

(** ** The wire *)

Record request : Type := mkRequest {
  url : string;
  payload : value
}.

(** One POST as the client sees it: how long it takes, and whether it ends
    in a response or in an exception of the client. *)
Record exchange : Type := mkExchange {
  elapsed : nat;
  outcome : result Response
}.

(** [httpx.AsyncClient(timeout=t).post(url, json=payload)] *)
Definition transport : Type := number → request → exchange.

(** The dispatchers launch one invocation per list element; the invocation
    launched for position [i] talks to [net i]. *)
Definition network : Type := nat → transport.

(** What one awaited call did: the requests it sent, the time it took and
    what it returned or raised. *)
Record call : Type := mkCall {
  sent : list request;
  took : nat;
  returned : result value
}.

Record batch : Type := mkBatch {
  batch_sent : list request;
  batch_returned : result (gmap string value)
}.

(** [Response.is_success] and [Response.raise_for_status] of httpx. *)
Definition is_success (r : Response) : bool :=
  ((200 <=? status_code r) && (status_code r <=? 299))%Z.

Definition raise_for_status (r : Response) : result Response :=
  if is_success r then Ok r else Raise (HTTPStatusError r).

(** The two shapes of a QueryResult. *)
Definition success (content reasoning_details : value) : value :=
  VDict {[ "content" := content; "reasoning_details" := reasoning_details ]}.

Definition failure (error_type error_message : string) : value :=
  VDict {[ "error" := VBool true;
           "error_type" := VStr error_type;
           "error_message" := VStr error_message ]}.

Definition error_types : list string :=
  ["connection"; "http"; "timeout"; "unknown"].

Definition Success (v : value) : Prop :=
  ∃ content reasoning_details, v = success content reasoning_details.

Definition Failure (v : value) : Prop :=
  ∃ error_type error_message,
    error_type ∈ error_types ∧ v = failure error_type error_message.

Definition QueryResult (v : value) : Prop :=
  (Success v ∧ ¬ Failure v) ∨ (Failure v ∧ ¬ Success v).

(** The entry under key [k] of a returned dict, if it has one. *)
Definition field (k : string) (v : value) : option value :=
  match v with
  | VDict d => d !! k
  | _ => None
  end.

(** ** Tasks and the streaming generator *)

(** A task made from [query_with_name(model)]: the model it names and the
    call to the executor that it awaits. *)
Record task : Type := mkTask {
  task_model : string;
  task_call : call
}.

(** All tasks are created together, so a task is done when its call ends. *)
Definition done_at (t : task) : nat := took (task_call t).

(** [asyncio.as_completed]: the pending task that is done first (the first
    created among those done together), and the tasks still pending. *)
Fixpoint next_done (pending : list task) : option (task * list task) :=
  match pending with
  | [] => None
  | t :: rest =>
      match next_done rest with
      | Some (u, others) =>
          if done_at u <? done_at t then Some (u, t :: others) else Some (t, rest)
      | None => Some (t, [])
      end
  end.

(** Completion order on tasks. *)
Definition by_completion (a b : task) : Prop := done_at a ≤ done_at b.

(** The item a completed task yields: [(model, response)]. *)
Definition yields (t : task) (item : string * value) : Prop :=
  item.1 = task_model t ∧ returned (task_call t) = Ok item.2.

(** The generator object: its body has not run yet ([Created], holding the
    arguments of the call), it is suspended at the [yield] inside the loop
    ([Suspended], holding the tasks not yet yielded), or it is over. *)
Inductive agen : Type :=
| Created (models : list string) (messages : list value)
| Suspended (pending : list task)
| Closed.

(** One [__anext__]: the requests sent while it ran, the item it yielded
    ([None] when the generator is exhausted) and the generator afterwards. *)
Record pull : Type := mkPull {
  pull_sent : list request;
  pull_item : result (option (string * value));
  pull_next : agen
}.

(** [await coro; yield (model, response)] for the next completed task. *)
Definition resume (requests : list request) (pending : list task) : pull :=
  match next_done pending with
  | None => mkPull requests (Ok None) Closed
  | Some (t, others) =>
      match returned (task_call t) with
      | Ok response => mkPull requests (Ok (Some (task_model t, response))) (Suspended others)
      | Raise e => mkPull requests (Raise e) Closed
      end
  end.

(** How an [async for] over the generator stands after some pulls. *)
Inductive ending : Type :=
| Exhausted
| Failed (e : exn)
| Unfinished (gen : agen).

Record consumed : Type := mkConsumed {
  seen : list (string * value);
  requests : list request;
  ended : ending
}.

(** [asyncio.gather] over the tasks: the results in the order of the tasks. *)
Fixpoint gather (tasks : list call) : result (list value) :=
  match tasks with
  | [] => Ok []
  | c :: rest =>
      response ← returned c;
      responses ← gather rest;
      Ok (response :: responses)
  end.

(** [{k: v for k, v in pairs}]: a later pair overwrites an earlier one. *)
Definition dict_of_pairs (pairs : list (string * value)) : gmap string value :=
  foldl (λ d kv, <[kv.1 := kv.2]> d) ∅ pairs.

(** ** A sample backend

    A configuration, a decoder that knows the bodies used below, and a
    network with five backends: the examples and instances at the end of the
    file run the client against them. *)

Definition sample_host : string := "localhost:8080".

Definition sample_timeout : number := Float "120.0".

Definition hello_message : gmap string value := {[ "content" := VStr "hello" ]}.

Definition hello_choice : gmap string value := {[ "message" := VDict hello_message ]}.

Definition hello_data : gmap string value :=
  {[ "choices" := VList [VDict hello_choice] ]}.

Definition hello_reply : value := VDict hello_data.

Definition sample_json_loads (s : string) : option value :=
  if decide (s = "hello-reply") then Some hello_reply
  else if decide (s = "empty-object") then Some (VDict ∅)
  else None.

Definition sample_str (e : exn) : string :=
  match e with
  | KeyError (VStr k) => "'" +:+ k +:+ "'"
  | OtherException _ msg => msg
  | _ => "error"
  end.

(** Backend 0 answers after 50 ticks, backend 1 times out, backend 2
    answers 500, backend 3 refuses the connection, the others answer an
    empty JSON object. *)
Definition sample_net : network := λ i timeout req,
  match i with
  | 0 => mkExchange 50 (Ok (mkResponse 200 "hello-reply"))
  | 1 => mkExchange 1200 (Raise (TimeoutException "ReadTimeout"))
  | 2 => mkExchange 10 (Ok (mkResponse 500 "Internal Server Error"))
  | 3 => mkExchange 5 (Raise (ConnectError "All connection attempts failed"))
  | _ => mkExchange 7 (Ok (mkResponse 200 "empty-object"))
  end.

(** The first two backends in the other order. *)
Definition swapped_net : network := λ i, sample_net (1 - i).

Definition photo : image := {[ "content" := "data:1"; "filename" := "a.png" ]}.

Definition scan : image := {[ "content" := "data:2"; "filename" := "b.png" ]}.

(** The sample network with every exchange a hundred ticks slower. *)
Definition slow_net : network := λ i timeout req,
  mkExchange (elapsed (sample_net i timeout req) + 100)
             (outcome (sample_net i timeout req)).

(** The sample network with backend 1 refusing connections. *)
Definition broken_net : network := λ i,
  match i with
  | 1 => λ timeout req, mkExchange 5 (Raise (ConnectError "Connection refused"))
  | _ => sample_net i
  end.

Definition renamed_photo : image :=
  {[ "content" := "data:1"; "filename" := "holiday.png" ]}.

Definition sample_type_name (e : exn) : string :=
  match e with
  | ConnectError _ => "ConnectError"
  | HTTPStatusError _ => "HTTPStatusError"
  | TimeoutException _ => "TimeoutException"
  | JSONDecodeError _ => "JSONDecodeError"
  | KeyError _ => "KeyError"
  | IndexError => "IndexError"
  | TypeError => "TypeError"
  | AttributeError => "AttributeError"
  | OtherException class_name _ => class_name
  end.

(** A body of [n] characters. *)
Definition filler (n : nat) : string := Nat.iter n (λ s, "x" +:+ s) "".

(** Every backend answers 502 with a body of 600 characters. *)
Definition verbose_net : network := λ i timeout req,
  mkExchange 3 (Ok (mkResponse 502 (filler 600))).

Section Client.

(** [LLAMACPP_HOST] and [DEFAULT_TIMEOUT] come from the configuration
    module; [json_loads] is the JSON decoder behind [Response.json] ([None]
    where it raises) and [str_exc] is [str] on an exception. *)
Variable LLAMACPP_HOST : string.
Variable DEFAULT_TIMEOUT : number.
Variable json_loads : string → option value.
Variable str_exc : exn → string.

Definition Response_json (r : Response) : result value :=
  match json_loads (text r) with
  | Some data => Ok data
  | None => Raise (JSONDecodeError (text r))
  end.

(** ** Single-query executor *)

Definition chat_request (model : string) (messages : list value) : request :=
  {| url := "http://" +:+ LLAMACPP_HOST +:+ "/v1/chat/completions";
     payload := VDict {[ "model" := VStr model;
                         "messages" := VList messages;
                         "stream" := VBool false ]} |}.

(** The body of the [try], from the response on. *)
Definition read_reply (response : Response) : result value :=
  _ ← raise_for_status response;
  data ← Response_json response;
  choices ← getitem data (Key "choices");
  first ← getitem choices (Index 0);
  message ← getitem first (Key "message");
  content ← method_get message "content";
  reasoning_details ← method_get message "reasoning_details";
  Ok (success content reasoning_details).

(** The body of the [try]. *)
Definition attempt (net : transport) (timeout : number) (req : request)
  : result value :=
  response ← outcome (net timeout req);
  read_reply response.

(** The [except] clauses, in order. *)
Definition handle (timeout : number) (e : exn) : result value :=
  match e with
  | ConnectError _ =>
      Ok (failure "connection" "Cannot connect to llama.cpp server")
  | HTTPStatusError response =>
      Ok (failure "http"
            ("HTTP " +:+ pretty (status_code response) +:+ ": "
             +:+ str_prefix 200 (text response)))
  | TimeoutException _ =>
      Ok (failure "timeout"
            ("Request timed out after " +:+ format_number timeout +:+ "s"))
  | _ => Ok (failure "unknown" (str_exc e))
  end.

(** The classes the first three clauses name. *)
Definition named_class (e : exn) : bool :=
  match e with
  | ConnectError _ | HTTPStatusError _ | TimeoutException _ => true
  | _ => false
  end.

Definition query_model (net : transport) (model : string)
    (messages : list value) (timeout : option number) (stage : option string)
  : call :=
  let timeout := default DEFAULT_TIMEOUT timeout in
  let req := chat_request model messages in
  {| sent := [req];
     took := elapsed (net timeout req);
     returned := match attempt net timeout req with
                 | Ok v => Ok v
                 | Raise e => handle timeout e
                 end |}.

(** ** Parallel batch dispatcher *)

Definition query_models_parallel (net : network) (models : list string)
    (messages : list value) (stage : option string) : batch :=
  let tasks := imap (λ i model, query_model (net i) model messages None stage) models in
  {| batch_sent := concat (sent <$> tasks);
     batch_returned :=
       responses ← gather tasks;
       Ok (dict_of_pairs (zip models responses)) |}.

(** ** Streaming completion dispatcher *)

(** Calling an async generator function runs none of its body: the call
    sends nothing and returns the generator object. *)
Definition query_models_streaming (models : list string) (messages : list value)
  : list request * agen :=
  ([], Created models messages).

(** The inner coroutine: it awaits [query_model(model, messages)] and
    returns the response under the model's name. *)
Definition query_with_name (net : transport) (messages : list value)
    (model : string) : task :=
  mkTask model (query_model net model messages None None).

(** [tasks = [asyncio.create_task(query_with_name(model)) for model in models]] *)
Definition create_tasks (net : network) (models : list string)
    (messages : list value) : list task :=
  imap (λ i model, query_with_name (net i) messages model) models.

Definition anext (net : network) (gen : agen) : pull :=
  match gen with
  | Created models messages =>
      let tasks := create_tasks net models messages in
      resume (concat ((sent ∘ task_call) <$> tasks)) tasks
  | Suspended pending => resume [] pending
  | Closed => mkPull [] (Ok None) Closed
  end.

(** [async for item in gen], at most [pulls] times round the loop. *)
Fixpoint async_for (pulls : nat) (net : network) (gen : agen) : consumed :=
  match pulls with
  | O => mkConsumed [] [] (Unfinished gen)
  | S n =>
      let p := anext net gen in
      match pull_item p with
      | Ok (Some item) =>
          let c := async_for n net (pull_next p) in
          mkConsumed (item :: seen c) (pull_sent p ++ requests c) (ended c)
      | Ok None => mkConsumed [] (pull_sent p) Exhausted
      | Raise e => mkConsumed [] (pull_sent p) (Failed e)
      end
  end.

(** ** What the executor logs *)

(** [type(e).__name__], the interpreter's as [str_exc] is. *)
Variable type_name : exn → string.

Inductive level : Type :=
| DEBUG
| ERROR.

(** One call to the logger: its level, its format string, and its arguments
    as [%s] renders them. *)
Record log_call : Type := mkLog {
  log_level : level;
  log_format : string;
  log_args : list string
}.

(** [if stage:] holds for a string that is not empty. *)
Definition truthy (stage : option string) : bool :=
  match stage with
  | Some (String _ _) => true
  | _ => false
  end.

(** The [logger.debug] before the request. *)
Definition debug_line (model : string) (stage : option string) : list log_call :=
  match stage with
  | Some (String c s) =>
      [mkLog DEBUG "[%s] Querying model: %s" [String c s; model]]
  | _ => []
  end.

(** The [logger.error] of each [except] clause. *)
Definition handle_log (model : string) (timeout : number) (e : exn) : log_call :=
  match e with
  | ConnectError _ =>
      mkLog ERROR
        "Connection error querying model %s: Cannot connect to llama.cpp at %s. Is the server running? Error: %s"
        [model; LLAMACPP_HOST; str_exc e]
  | HTTPStatusError response =>
      mkLog ERROR "HTTP error querying model %s: Status %s. Response: %s"
        [model; pretty (status_code response); str_prefix 500 (text response)]
  | TimeoutException _ =>
      mkLog ERROR
        "Timeout error querying model %s: Request took longer than %ss. Error: %s"
        [model; format_number timeout; str_exc e]
  | _ =>
      mkLog ERROR "Unexpected error querying model %s: %s: %s"
        [model; type_name e; str_exc e]
  end.

(** The logger calls of one invocation of [query_model], in order. *)
Definition query_model_log (net : transport) (model : string)
    (messages : list value) (timeout : option number) (stage : option string)
  : list log_call :=
  let timeout := default DEFAULT_TIMEOUT timeout in
  let req := chat_request model messages in
  debug_line model stage
  ++ match attempt net timeout req with
     | Ok _ => []
     | Raise e => [handle_log model timeout e]
     end.

(** ** Shapes of a decoded body *)

(** The object under [message] in the first of [choices], where the body
    has one. *)
Definition first_message (data : value) : option (gmap string value) :=
  match data with
  | VDict d =>
      match d !! "choices" with
      | Some (VList (VDict first :: _)) =>
          match first !! "message" with
          | Some (VDict message) => Some message
          | _ => None
          end
      | _ => None
      end
  | _ => None
  end.

(** The kind a failure value carries. *)
Definition error_type_of (v : value) : option string :=
  match field "error_type" v with
  | Some (VStr kind) => Some kind
  | _ => None
  end.

(** The same exchanges outcome for outcome, whatever the time they take. *)
Definition same_outcomes (net net' : transport) : Prop :=
  ∀ timeout req, outcome (net timeout req) = outcome (net' timeout req).

(** ** Reading a content and an item *)

(** The ['content'] entries of the images passed, in order. *)
Definition image_uris (images : option (list image)) : list (option string) :=
  match images with
  | None => []
  | Some imgs => (λ img : image, img !! "content") <$> imgs
  end.

(** The pair a task hands to the generator once its call has returned. *)
Definition task_item (t : task) : string * value :=
  (task_model t,
   match returned (task_call t) with
   | Ok response => response
   | Raise _ => VNone
   end).

(** * Properties *)

(** ** Content builder *)

Lemma append_images_records content images :
  Forall image_record images →
  ∃ parts, append_images content images = Ok (content ++ parts)
           ∧ Forall2 image_ref images parts.
Proof.
  revert content.
  induction images as [|img rest IH]; intros content Hrec.
  - exists []. split; [by rewrite app_nil_r | constructor].
  - inversion Hrec as [|? ? [[uri Huri] _] Hrest]; subst.
    destruct (IH (content ++ [image_url_part uri]) Hrest) as (parts & Heq & Hparts).
    exists (image_url_part uri :: parts). split.
    + simpl. unfold image_getitem. rewrite Huri. simpl.
      rewrite Heq. by rewrite <- app_assoc.
    + constructor; [by exists uri | done].
Qed.

(** Only the ['content'] of an image reaches the output. *)
Lemma append_images_content_only content images images' :
  Forall2 (λ a b : image, a !! "content" = b !! "content") images images' →
  append_images content images' = append_images content images.
Proof.
  intros Hsame. revert content.
  induction Hsame as [|a b l l' Hab _ IH]; intros content; [done |].
  simpl. unfold image_getitem. rewrite Hab.
  destruct (b !! "content"); simpl; [apply IH | done].
Qed.

(** C7. With no images (absent or empty) the content is the text itself, a
    plain string.  With images it is a list: first the dict
    [{"type": "text", "text": text}], then one dict
    [{"type": "image_url", "image_url": {"url": content}}] per image, in
    input order, holding that image's ['content'] as its url and nothing
    else; the output does not depend on ['filename']. *)
Theorem build_message_content_shape (txt : string) (images : option (list image)) :
  (images = None ∨ images = Some [] →
     build_message_content txt images = Ok (VStr txt))
  ∧ (∀ imgs, images = Some imgs → imgs ≠ [] →
       Forall (λ img : image,
                 is_Some (img !! "content") ∧ is_Some (img !! "filename")) imgs →
       (∃ parts,
          build_message_content txt images
          = Ok (VList (VDict {[ "type" := VStr "text"; "text" := VStr txt ]} :: parts))
          ∧ length parts = length imgs
          ∧ Forall2 (λ (img : image) (part : value),
                       ∃ uri, img !! "content" = Some uri
                              ∧ part = VDict {[ "type" := VStr "image_url";
                                                "image_url" :=
                                                  VDict {[ "url" := VStr uri ]} ]})
              imgs parts)
       ∧ ∀ imgs', Forall2 (λ a b : image, a !! "content" = b !! "content") imgs imgs' →
           build_message_content txt (Some imgs') = build_message_content txt images).
Proof.
  split.
  - by intros [-> | ->].
  - intros imgs -> Hne Hrec. split.
    + destruct (append_images_records [text_part txt] imgs Hrec) as (parts & Heq & Hparts).
      exists parts. split; [| split; [symmetry; by eapply Forall2_length | exact Hparts]].
      destruct imgs as [|img rest]; [done |].
      unfold build_message_content. by rewrite Heq.
    + intros imgs' Hsame.
      destruct Hsame as [|a b l l' Hab Hrest]; [done |].
      unfold build_message_content.
      by rewrite (append_images_content_only _ (a :: l) (b :: l')); [| constructor].
Qed.

(** C8. On any text and any list of image records the content builder
    returns a value, it raises nothing; and it is a function of its
    arguments: equal inputs give the same output. *)
Theorem build_message_content_total (txt : string) (images : option (list image)) :
  (∀ imgs, images = Some imgs → Forall image_record imgs) →
  ∃ content, build_message_content txt images = Ok content
    ∧ ∀ txt' images', txt' = txt → images' = images →
        build_message_content txt' images' = Ok content.
Proof.
  intros Hrec.
  assert (∃ content, build_message_content txt images = Ok content) as [content Hc].
  { destruct images as [imgs|]; [| by eexists].
    destruct imgs as [|img rest]; [by eexists |].
    destruct (append_images_records [text_part txt] (img :: rest) (Hrec _ eq_refl))
      as (parts & Heq & _).
    exists (VList ([text_part txt] ++ parts)).
    unfold build_message_content. by rewrite Heq. }
  exists content. split; [done |]. by intros ? ? -> ->.
Qed.

(** ** Single-query executor *)

Lemma success_field_error content reasoning_details :
  field "error" (success content reasoning_details) = None.
Proof. simpl. by rewrite lookup_insert_ne, lookup_singleton_ne. Qed.

Lemma failure_field_error error_type error_message :
  field "error" (failure error_type error_message) = Some (VBool true).
Proof. simpl. by rewrite lookup_insert_eq. Qed.

Lemma Success_not_Failure v : Success v → Failure v → False.
Proof.
  intros (c & r & ->) (k & m & _ & Heq).
  apply (f_equal (field "error")) in Heq.
  rewrite success_field_error, failure_field_error in Heq. discriminate.
Qed.

Lemma Success_QueryResult v : Success v → QueryResult v.
Proof. intros Hs. left. split; [done |]. intros Hf. by apply (Success_not_Failure v). Qed.

Lemma Failure_QueryResult v : Failure v → QueryResult v.
Proof.
  intros Hf. right. split; [done |]. intros Hs. by apply (Success_not_Failure v).
Qed.

Lemma failure_Failure error_type error_message :
  error_type ∈ error_types → Failure (failure error_type error_message).
Proof. intros Hin. by exists error_type, error_message. Qed.

(** The [except] clauses let nothing through: whatever was raised becomes
    a failure value of one of the four kinds. *)
Lemma handle_Failure timeout e :
  ∃ v, handle timeout e = Ok v ∧ Failure v.
Proof.
  destruct e; simpl; eexists; (split; [reflexivity |]);
    apply failure_Failure; unfold error_types; set_solver.
Qed.

Ltac bind_cases H :=
  repeat match type of H with
  | context [mbind _ ?m] =>
      let E := fresh "E" in destruct m eqn:E; simpl in H; try discriminate H
  end.

Lemma read_reply_Success response v : read_reply response = Ok v → Success v.
Proof.
  unfold read_reply. intros H. bind_cases H.
  injection H as <-. by eexists _, _.
Qed.

Lemma attempt_Success net timeout req v :
  attempt net timeout req = Ok v → Success v.
Proof.
  unfold attempt. intros H.
  destruct (outcome (net timeout req)) as [response|e]; simpl in H; [| discriminate].
  by apply read_reply_Success in H.
Qed.

(** Every invocation returns, and what it returns has one of the two shapes. *)
Lemma query_model_cases net model messages timeout stage :
  ∃ v, returned (query_model net model messages timeout stage) = Ok v
       ∧ (Success v ∨ Failure v).
Proof.
  unfold query_model. simpl.
  destruct (attempt net _ _) as [v|e] eqn:Hatt.
  - exists v. split; [done |]. left. by apply attempt_Success in Hatt.
  - destruct (handle_Failure (default DEFAULT_TIMEOUT timeout) e) as (v & Hv & Hf).
    exists v. split; [done |]. by right.
Qed.

(** [s[:n]] is a prefix of [s], of [n] characters when [s] has that many. *)
Lemma str_prefix_spec n s :
  (∃ rest, s = str_prefix n s +:+ rest)
  ∧ String.length (str_prefix n s) = n `min` String.length s.
Proof.
  revert s. induction n as [|n IH]; intros s.
  - split; [by exists s | by destruct s].
  - destruct s as [|c s]; [split; [by exists EmptyString | done] |].
    destruct (IH s) as [[rest Hrest] Hlen]. split.
    + exists rest.
      change (String c s = String c (str_prefix n s +:+ rest)). by f_equal.
    + simpl. by rewrite Hlen.
Qed.

Lemma query_model_returned net model messages timeout stage :
  returned (query_model net model messages timeout stage)
  = match attempt net (default DEFAULT_TIMEOUT timeout) (chat_request model messages) with
    | Ok v => Ok v
    | Raise e => handle (default DEFAULT_TIMEOUT timeout) e
    end.
Proof. reflexivity. Qed.

Lemma attempt_raised net timeout req e :
  outcome (net timeout req) = Raise e → attempt net timeout req = Raise e.
Proof. unfold attempt. by intros ->. Qed.

Lemma attempt_status_error net timeout req response :
  outcome (net timeout req) = Ok response →
  is_success response = false →
  attempt net timeout req = Raise (HTTPStatusError response).
Proof.
  intros Hout Hstatus. unfold attempt. rewrite Hout. simpl.
  unfold read_reply, raise_for_status. by rewrite Hstatus.
Qed.

Lemma is_success_2xx response :
  is_success response = true ↔ (200 ≤ status_code response ≤ 299)%Z.
Proof. unfold is_success. rewrite andb_true_iff. lia. Qed.

Lemma read_reply_2xx response data :
  (200 ≤ status_code response ≤ 299)%Z →
  json_loads (text response) = Some data →
  read_reply response
  = (choices ← getitem data (Key "choices");
     first ← getitem choices (Index 0);
     message ← getitem first (Key "message");
     content ← method_get message "content";
     reasoning_details ← method_get message "reasoning_details";
     Ok (success content reasoning_details)).
Proof.
  intros Hstatus Hjson. unfold read_reply, raise_for_status, Response_json.
  apply is_success_2xx in Hstatus. by rewrite Hstatus, Hjson.
Qed.


Lemma getitem_raises obj k e : getitem obj k = Raise e → named_class e = false.
Proof.
  destruct obj as [| | | | s | l | d], k as [key | i]; simpl;
    try (by intros [= <-]).
  - destruct (seq_position _ i); [| by intros [= <-]].
    destruct (str_at s _); [done | by intros [= <-]].
  - destruct (seq_position _ i); [| by intros [= <-]].
    destruct (l !! _); [done | by intros [= <-]].
  - destruct (d !! key); [done | by intros [= <-]].
Qed.

Lemma method_get_raises obj k e : method_get obj k = Raise e → named_class e = false.
Proof. destruct obj; simpl; try done; by intros [= <-]. Qed.

Lemma first_message_reply data message :
  first_message data = Some message →
  (choices ← getitem data (Key "choices");
   first ← getitem choices (Index 0);
   msg ← getitem first (Key "message");
   content ← method_get msg "content";
   reasoning_details ← method_get msg "reasoning_details";
   Ok (success content reasoning_details))
  = Ok (success (default VNone (message !! "content"))
                (default VNone (message !! "reasoning_details"))).
Proof.
  unfold first_message.
  destruct data as [| | | | | |d]; try done.
  destruct (d !! "choices") as [choices|] eqn:Hchoices; [| done].
  destruct choices as [| | | | |items|]; try done.
  destruct items as [|first rest]; [done |].
  destruct first as [| | | | | |f]; try done.
  destruct (f !! "message") as [msg|] eqn:Hmsg; [| done].
  destruct msg as [| | | | | |m]; try done.
  intros [= <-]. simpl. rewrite Hchoices. simpl. by rewrite Hmsg.
Qed.

Lemma no_first_message_reply data :
  first_message data = None →
  ∃ e, named_class e = false
       ∧ (choices ← getitem data (Key "choices");
          first ← getitem choices (Index 0);
          msg ← getitem first (Key "message");
          content ← method_get msg "content";
          reasoning_details ← method_get msg "reasoning_details";
          Ok (success content reasoning_details)) = Raise e.
Proof.
  intros Hnone.
  destruct (getitem data (Key "choices")) as [choices|e1] eqn:E1; simpl;
    [| exists e1; split; [by eapply getitem_raises | done]].
  destruct (getitem choices (Index 0)) as [first|e2] eqn:E2; simpl;
    [| exists e2; split; [by eapply getitem_raises | done]].
  destruct (getitem first (Key "message")) as [msg|e3] eqn:E3; simpl;
    [| exists e3; split; [by eapply getitem_raises | done]].
  destruct (method_get msg "content") as [content|e4] eqn:E4; simpl;
    [| exists e4; split; [by eapply method_get_raises | done]].
  exfalso.
  destruct msg as [| | | | | |m]; try discriminate E4.
  destruct first as [| | | | s | l |f]; try discriminate E3.
  - simpl in E3. destruct (f !! "message") as [x|] eqn:Hf; [| done].
    injection E3 as ->.
    destruct choices as [| | | | s | items |c]; try discriminate E2.
    + simpl in E2. destruct (seq_position _ _); [| done].
      by destruct (str_at s _).
    + destruct items as [|y rest]; [done |]. simpl in E2. injection E2 as ->.
      destruct data as [| | | | | |d]; try discriminate E1.
      simpl in E1. destruct (d !! "choices") as [z|] eqn:Hd; [| done].
      injection E1 as ->. simpl in Hnone. by rewrite Hd, Hf in Hnone.
Qed.

Lemma not_2xx response :
  ¬ (200 ≤ status_code response ≤ 299)%Z → is_success response = false.
Proof.
  intros Hnot. destruct (is_success response) eqn:Hstatus; [| done].
  by apply is_success_2xx in Hstatus.
Qed.

(** What a 2xx response gives: the success read off a well-shaped body, a
    failure of kind "unknown" for any other body. *)
Lemma returned_2xx net model messages timeout stage response :
  outcome (net (default DEFAULT_TIMEOUT timeout) (chat_request model messages))
  = Ok response →
  (200 ≤ status_code response ≤ 299)%Z →
  match json_loads (text response) ≫= first_message with
  | Some message =>
      returned (query_model net model messages timeout stage)
      = Ok (success (default VNone (message !! "content"))
                    (default VNone (message !! "reasoning_details")))
  | None =>
      ∃ e, named_class e = false
           ∧ returned (query_model net model messages timeout stage)
             = Ok (failure "unknown" (str_exc e))
  end.
Proof.
  intros Hout Hstatus.
  rewrite query_model_returned. unfold attempt. rewrite Hout. simpl.
  destruct (json_loads (text response)) as [data|] eqn:Hjson; simpl.
  - rewrite (read_reply_2xx _ _ Hstatus Hjson).
    destruct (first_message data) as [message|] eqn:Hshape.
    + by rewrite (first_message_reply _ _ Hshape).
    + destruct (no_first_message_reply _ Hshape) as (e & Hother & ->).
      exists e. split; [done |]. by destruct e.
  - unfold read_reply, raise_for_status, Response_json.
    rewrite (proj2 (is_success_2xx _) Hstatus), Hjson. simpl.
    by exists (JSONDecodeError (text response)).
Qed.

Lemma failure_fields kind msg :
  field "error" (failure kind msg) = Some (VBool true)
  ∧ field "error_type" (failure kind msg) = Some (VStr kind)
  ∧ field "error_message" (failure kind msg) = Some (VStr msg)
  ∧ field "content" (failure kind msg) = None
  ∧ field "reasoning_details" (failure kind msg) = None.
Proof. repeat split; simpl; by simplify_map_eq. Qed.

Lemma success_fields content reasoning_details :
  field "error" (success content reasoning_details) = None
  ∧ field "error_type" (success content reasoning_details) = None
  ∧ field "error_message" (success content reasoning_details) = None
  ∧ field "content" (success content reasoning_details) = Some content
  ∧ field "reasoning_details" (success content reasoning_details)
    = Some reasoning_details.
Proof. repeat split; simpl; by simplify_map_eq. Qed.

(** Every invocation returns; the value is a success exactly for a 2xx
    response with a well-shaped body, and a failure for everything else the
    exchange can end in. *)
Lemma query_model_outcomes net model messages timeout stage :
  let x := net (default DEFAULT_TIMEOUT timeout) (chat_request model messages) in
  ∃ v, returned (query_model net model messages timeout stage) = Ok v
    ∧ ((Success v
        ∧ ∃ response message,
            outcome x = Ok response
            ∧ (200 ≤ status_code response ≤ 299)%Z
            ∧ json_loads (text response) ≫= first_message = Some message)
       ∨ (Failure v
          ∧ ((∃ e, outcome x = Raise e)
             ∨ ∃ response,
                 outcome x = Ok response
                 ∧ (¬ (200 ≤ status_code response ≤ 299)%Z
                    ∨ json_loads (text response) ≫= first_message = None)))).
Proof.
  clear type_name. intros x. destruct (outcome x) as [response|e] eqn:Hout.
  - destruct (decide (200 ≤ status_code response ≤ 299)%Z) as [Hstatus | Hstatus].
    + pose proof (returned_2xx net model messages timeout stage response Hout Hstatus)
        as Hret.
      destruct (json_loads (text response) ≫= first_message) as [message|] eqn:Hshape.
      * eexists. split; [exact Hret |]. left. split; [by eexists _, _ |].
        by exists response, message.
      * destruct Hret as (e & _ & Hret). eexists. split; [exact Hret |]. right.
        split; [apply failure_Failure; unfold error_types; set_solver |].
        right. exists response. split; [done |]. by right.
    + eexists. split.
      { rewrite query_model_returned.
        by rewrite (attempt_status_error _ _ _ _ Hout (not_2xx _ Hstatus)). }
      right. split; [apply failure_Failure; unfold error_types; set_solver |].
      right. exists response. split; [done |]. by left.
  - destruct (handle_Failure (default DEFAULT_TIMEOUT timeout) e) as (v & Hv & Hf).
    exists v. split.
    { rewrite query_model_returned. by rewrite (attempt_raised _ _ _ _ Hout). }
    right. split; [done |]. left. by exists e.
Qed.

(** C1. Every invocation of the executor returns: nothing raised inside is
    let through, and the value returned is exactly one QueryResult, of the
    success shape or of the failure shape and never of both; one request was
    sent for it.  Every failure becomes a failure value: an exception of the
    client, a response whose status is not 2xx, a body that does not decode
    or has not the expected shape; only a 2xx response with a well-shaped
    body gives a success.  A failure value has ['error'] True, one of the
    four kinds and a message, and none of the success keys; a success value
    has ['content'] and ['reasoning_details'] and no ['error']. *)
Theorem query_model_never_raises (net : transport) (model : string)
    (messages : list value) (timeout : option number) (stage : option string) :
  let x := net (default DEFAULT_TIMEOUT timeout) (chat_request model messages) in
  ∃ v, returned (query_model net model messages timeout stage) = Ok v
       ∧ QueryResult v
       ∧ sent (query_model net model messages timeout stage)
         = [chat_request model messages]
       ∧ (∀ e, outcome x = Raise e → Failure v)
       ∧ (∀ response, outcome x = Ok response →
            ¬ (200 ≤ status_code response ≤ 299)%Z
            ∨ json_loads (text response) ≫= first_message = None →
            Failure v)
       ∧ (∀ response message, outcome x = Ok response →
            (200 ≤ status_code response ≤ 299)%Z →
            json_loads (text response) ≫= first_message = Some message →
            Success v)
       ∧ (Failure v →
            field "error" v = Some (VBool true)
            ∧ (∃ kind, field "error_type" v = Some (VStr kind)
                       ∧ (kind = "connection" ∨ kind = "http"
                          ∨ kind = "timeout" ∨ kind = "unknown"))
            ∧ (∃ msg, field "error_message" v = Some (VStr msg))
            ∧ field "content" v = None
            ∧ field "reasoning_details" v = None)
       ∧ (Success v →
            field "error" v = None
            ∧ is_Some (field "content" v)
            ∧ is_Some (field "reasoning_details" v)).
Proof.
  clear type_name. intros x.
  destruct (query_model_outcomes net model messages timeout stage)
    as (v & Hv & Hcases).
  fold x in Hcases. exists v. split; [done |].
  assert (Failure v →
          field "error" v = Some (VBool true)
          ∧ (∃ kind, field "error_type" v = Some (VStr kind)
                     ∧ (kind = "connection" ∨ kind = "http"
                        ∨ kind = "timeout" ∨ kind = "unknown"))
          ∧ (∃ msg, field "error_message" v = Some (VStr msg))
          ∧ field "content" v = None
          ∧ field "reasoning_details" v = None) as Hfields.
  { intros (kind & msg & Hkind & ->).
    destruct (failure_fields kind msg) as (He & Hk & Hm & Hc & Hr).
    split; [done |]. split; [| split; [by exists msg | done]].
    exists kind. split; [done |]. unfold error_types in Hkind. set_solver. }
  assert (Success v →
          field "error" v = None
          ∧ is_Some (field "content" v)
          ∧ is_Some (field "reasoning_details" v)) as Hkeys.
  { intros (content & rd & ->).
    destruct (success_fields content rd) as (He & _ & _ & Hc & Hr).
    split; [done |]. split; by eexists. }
  destruct Hcases as [(Hs & response & message & Hout & Hstatus & Hshape)
                     | (Hf & Hcause)].
  - split; [by apply Success_QueryResult |]. split; [done |].
    split; [intros e He; congruence |]. split.
    { intros response' Hout' Hbad.
      assert (response' = response) as -> by congruence.
      destruct Hbad as [Hbad | Hbad]; [done | congruence]. }
    done.
  - split; [by apply Failure_QueryResult |]. split; [done |].
    split; [done |]. split; [done |]. split; [| done].
    intros response message Hout Hstatus Hshape.
    destruct Hcause as [[e He] | (response' & Hout' & Hbad)]; [congruence |].
    assert (response' = response) as -> by congruence.
    destruct Hbad as [Hbad | Hbad]; [done | congruence].
Qed.

(** C2. A failing request is classified into the four kinds, each with
    its message.  A refused connection gives "connection" with the fixed
    message.  A response whose status is not 2xx gives "http" with
    "HTTP {status}: " and the first 200 characters of the body: a prefix of
    the body, of 200 characters or of the whole body when that is shorter.
    A timeout gives "timeout" with the timeout in force in the message, an
    int in decimal and a float by its repr.  Anything else raised, by the
    client or by reading the reply, gives "unknown" with [str] of the
    exception.  Whatever the attempt raises, the result is a Failure. *)
Theorem query_model_failure_taxonomy (net : transport) (model : string)
    (messages : list value) (timeout : option number) (stage : option string) :
  let t := default DEFAULT_TIMEOUT timeout in
  let req := chat_request model messages in
  let r := returned (query_model net model messages timeout stage) in
  let failed (error_type error_message : string) : result value :=
    Ok (VDict {[ "error" := VBool true;
                 "error_type" := VStr error_type;
                 "error_message" := VStr error_message ]}) in
  (∀ msg, outcome (net t req) = Raise (ConnectError msg) →
     r = failed "connection" "Cannot connect to llama.cpp server")
  ∧ (∀ response, outcome (net t req) = Ok response →
       ¬ (200 ≤ status_code response ≤ 299)%Z →
       ∃ excerpt rest,
         r = failed "http"
               ("HTTP " +:+ pretty (status_code response) +:+ ": " +:+ excerpt)
         ∧ text response = excerpt +:+ rest
         ∧ String.length excerpt = 200 `min` String.length (text response))
  ∧ (∀ msg, outcome (net t req) = Raise (TimeoutException msg) →
       r = failed "timeout"
             ("Request timed out after "
              +:+ match t with Int n => pretty n | Float repr => repr end
              +:+ "s"))
  ∧ (∀ e, outcome (net t req) = Raise e →
       (∀ msg, e ≠ ConnectError msg) →
       (∀ response, e ≠ HTTPStatusError response) →
       (∀ msg, e ≠ TimeoutException msg) →
       r = failed "unknown" (str_exc e))
  ∧ (∀ response, outcome (net t req) = Ok response →
       (200 ≤ status_code response ≤ 299)%Z →
       json_loads (text response) = None →
       r = failed "unknown" (str_exc (JSONDecodeError (text response))))
  ∧ (∀ e, attempt net t req = Raise e → named_class e = false →
       r = failed "unknown" (str_exc e))
  ∧ (∀ e, attempt net t req = Raise e → ∃ v, r = Ok v ∧ Failure v).
Proof.
  intros t req r failed. subst r failed. rewrite query_model_returned. fold t req.
  split; [| split; [| split; [| split; [| split; [| split]]]]].
  - intros msg Hout. by rewrite (attempt_raised _ _ _ _ Hout).
  - intros response Hout Hstatus.
    rewrite (attempt_status_error _ _ _ _ Hout (not_2xx _ Hstatus)).
    destruct (str_prefix_spec 200 (text response)) as [[rest Hrest] Hlen].
    by exists (str_prefix 200 (text response)), rest.
  - intros msg Hout. by rewrite (attempt_raised _ _ _ _ Hout).
  - intros e Hout Hc Hh Ht. rewrite (attempt_raised _ _ _ _ Hout).
    destruct e; try done.
    + by destruct (Hc msg).
    + by destruct (Hh response).
    + by destruct (Ht msg).
  - intros response Hout Hstatus Hjson.
    unfold attempt. rewrite Hout. simpl.
    unfold read_reply, raise_for_status, Response_json.
    by rewrite (proj2 (is_success_2xx _) Hstatus), Hjson.
  - intros e -> Hother. by destruct e.
  - intros e ->. apply handle_Failure.
Qed.


(** C9. The executor never returns None.  A failure value has ['error']
    set to True and a success value has no ['error'] key, so the key tells
    the two shapes of the returned value apart. *)
Theorem query_model_error_key (net : transport) (model : string)
    (messages : list value) (timeout : option number) (stage : option string) :
  ∃ v, returned (query_model net model messages timeout stage) = Ok v
    ∧ v ≠ VNone
    ∧ (Failure v → field "error" v = Some (VBool true))
    ∧ (Success v → field "error" v = None)
    ∧ (Failure v ↔ is_Some (field "error" v))
    ∧ (Success v ↔ field "error" v = None).
Proof.
  destruct (query_model_cases net model messages timeout stage) as (v & Hv & Hshape).
  assert (Failure v → field "error" v = Some (VBool true)) as Hfail.
  { intros (k & m & _ & ->). apply failure_field_error. }
  assert (Success v → field "error" v = None) as Hsucc.
  { intros (c & rd & ->). apply success_field_error. }
  exists v. split; [done |]. split.
  { intros ->. destruct Hshape as [(? & ? & [=]) | (? & ? & _ & [=])]. }
  split; [done |]. split; [done |]. split.
  - split; [intros Hf; rewrite (Hfail Hf); by eexists |].
    intros [x Hx]. destruct Hshape as [Hs | Hf]; [| done].
    rewrite (Hsucc Hs) in Hx. discriminate.
  - split; [done |].
    intros Hnone. destruct Hshape as [Hs | Hf]; [done |].
    rewrite (Hfail Hf) in Hnone. discriminate.
Qed.

(** ** Parallel batch dispatcher *)

Lemma dict_of_pairs_snoc pairs k v :
  dict_of_pairs (pairs ++ [(k, v)]) = <[k:=v]> (dict_of_pairs pairs).
Proof. unfold dict_of_pairs. by rewrite foldl_app. Qed.

Lemma dom_dict_of_pairs pairs :
  dom (dict_of_pairs pairs) = list_to_set pairs.*1.
Proof.
  induction pairs as [|[k v] pairs IH] using rev_ind.
  - unfold dict_of_pairs. simpl. by rewrite dom_empty_L.
  - rewrite dict_of_pairs_snoc, dom_insert_L, fmap_app, list_to_set_app_L, IH.
    simpl. set_solver.
Qed.

(** The entry of a key is the value of its last pair. *)
Lemma dict_of_pairs_last pairs i k v :
  pairs !! i = Some (k, v) →
  (∀ j v', i < j → pairs !! j ≠ Some (k, v')) →
  dict_of_pairs pairs !! k = Some v.
Proof.
  revert i. induction pairs as [|[k' v'] pairs IH] using rev_ind;
    intros i Hi Hlast; [done |].
  rewrite dict_of_pairs_snoc.
  destruct (decide (i = length pairs)) as [-> | Hne].
  - rewrite lookup_app_r, Nat.sub_diag in Hi by lia.
    injection Hi as -> ->. apply lookup_insert_eq.
  - assert (i < length pairs) as Hlt.
    { apply lookup_lt_Some in Hi. rewrite length_app in Hi. simpl in Hi. lia. }
    rewrite lookup_app_l in Hi by done.
    rewrite lookup_insert_ne.
    + apply (IH i Hi). intros j w Hij Hj. apply (Hlast j w Hij).
      rewrite lookup_app_l; [done |]. by eapply lookup_lt_Some.
    + intros ->. apply (Hlast (length pairs) v'); [done |].
      by rewrite lookup_app_r, Nat.sub_diag by lia.
Qed.

Lemma size_list_to_set_le (l : list string) :
  size (list_to_set l : gset string) ≤ length l.
Proof.
  induction l as [|x l IH]; [by rewrite list_to_set_nil, size_empty |].
  rewrite list_to_set_cons, size_union_alt, size_singleton. simpl.
  pose proof (subseteq_size (list_to_set l ∖ {[x]}) (list_to_set l : gset string)) as Hsub.
  assert (size (list_to_set l ∖ {[x]} : gset string) ≤ size (list_to_set l : gset string))
    by (apply Hsub; set_solver).
  lia.
Qed.

Lemma size_list_to_set_lt (l : list string) :
  ¬ NoDup l → size (list_to_set l : gset string) < length l.
Proof.
  induction l as [|x l IH]; intros Hdup; [destruct Hdup; constructor |].
  rewrite list_to_set_cons. simpl.
  destruct (decide (x ∈ l)) as [Hin | Hout].
  - assert ({[x]} ∪ list_to_set l = (list_to_set l : gset string)) as ->
      by set_solver.
    pose proof (size_list_to_set_le l). lia.
  - assert (¬ NoDup l) as Hl by (intros Hl; apply Hdup; by constructor).
    rewrite size_union_alt, size_singleton.
    pose proof (subseteq_size (list_to_set l ∖ {[x]}) (list_to_set l : gset string)) as Hsub.
    assert (size (list_to_set l ∖ {[x]} : gset string) ≤ size (list_to_set l : gset string))
      by (apply Hsub; set_solver).
    specialize (IH Hl). lia.
Qed.

Lemma size_dict_of_pairs pairs :
  size (dict_of_pairs pairs) = size (list_to_set pairs.*1 : gset string).
Proof. by rewrite <- dom_dict_of_pairs, size_dom. Qed.

Lemma gather_returned tasks :
  Forall (λ c, ∃ v, returned c = Ok v) tasks →
  ∃ responses, gather tasks = Ok responses
               ∧ Forall2 (λ c v, returned c = Ok v) tasks responses.
Proof.
  induction 1 as [|c tasks [v Hv] _ (responses & Hg & Hall)].
  - exists []. by split; [| constructor].
  - exists (v :: responses). simpl. rewrite Hv. simpl. rewrite Hg.
    by split; [| constructor].
Qed.

Lemma sent_imap (f : nat → string → call) (g : string → request) models :
  (∀ i model, sent (f i model) = [g model]) →
  concat (sent <$> imap f models) = g <$> models.
Proof.
  revert f. induction models as [|model models IH]; intros f Hf; [done |].
  rewrite imap_cons. simpl. rewrite Hf. simpl. f_equal.
  apply IH. intros i m. apply Hf.
Qed.

(** The batch is the dict built from the models zipped with their own
    responses, one response per list element. *)
Lemma query_models_parallel_returned net models messages stage :
  ∃ responses,
    batch_returned (query_models_parallel net models messages stage)
    = Ok (dict_of_pairs (zip models responses))
    ∧ length responses = length models
    ∧ ∀ i model, models !! i = Some model →
        ∃ v, responses !! i = Some v
             ∧ returned (query_model (net i) model messages None stage) = Ok v.
Proof.
  unfold query_models_parallel. simpl.
  set (tasks := imap _ models).
  assert (Forall (λ c, ∃ v, returned c = Ok v) tasks) as Hall.
  { apply Forall_lookup_2. intros i c Hc. subst tasks.
    rewrite list_lookup_imap in Hc.
    destruct (models !! i) as [model|]; [| done]. injection Hc as <-.
    destruct (query_model_cases (net i) model messages None stage) as (v & Hv & _).
    by exists v. }
  destruct (gather_returned tasks Hall) as (responses & Hg & Hrs).
  exists responses. rewrite Hg. simpl. split; [done |].
  assert (length responses = length models) as Hlen.
  { rewrite <- (Forall2_length _ _ _ Hrs). subst tasks. apply length_imap. }
  split; [done |]. intros i model Hi.
  assert (tasks !! i = Some (query_model (net i) model messages None stage)) as Hti.
  { subst tasks. by rewrite list_lookup_imap, Hi. }
  destruct (Forall2_lookup_l _ _ _ _ _ Hrs Hti) as (v & Hv & Hret).
  by exists v.
Qed.

Lemma query_models_parallel_sent net models messages stage :
  batch_sent (query_models_parallel net models messages stage)
  = (λ model, chat_request model messages) <$> models.
Proof. unfold query_models_parallel. simpl. by apply sent_imap. Qed.

(** C3. For a list of distinct models the batch dispatcher returns a
    mapping with exactly one entry per model, the entry of a model being the
    QueryResult of that model's own invocation; one request is sent per
    model; and for the empty list the mapping is empty and nothing is sent. *)
Theorem query_models_parallel_complete (net : network) (models : list string)
    (messages : list value) (stage : option string) :
  NoDup models →
  (∃ results,
     batch_returned (query_models_parallel net models messages stage) = Ok results
     ∧ size results = length models
     ∧ dom results = list_to_set models
     ∧ (∀ i model, models !! i = Some model →
          ∃ v, results !! model = Some v
               ∧ returned (query_model (net i) model messages None stage) = Ok v
               ∧ QueryResult v)
     ∧ batch_sent (query_models_parallel net models messages stage)
       = (λ model, chat_request model messages) <$> models)
  ∧ (models = [] →
       query_models_parallel net models messages stage = mkBatch [] (Ok ∅)).
Proof.
  intros Hnodup. split; [| by intros ->].
  destruct (query_models_parallel_returned net models messages stage)
    as (responses & Hret & Hlen & Hown).
  exists (dict_of_pairs (zip models responses)).
  assert ((zip models responses).*1 = models) as Hkeys by (apply fst_zip; lia).
  split; [done |]. split.
  { rewrite size_dict_of_pairs, Hkeys. by apply size_list_to_set. }
  split.
  { by rewrite dom_dict_of_pairs, Hkeys. }
  split; [| apply query_models_parallel_sent].
  intros i model Hi. destruct (Hown i model Hi) as (v & Hv & Hcall).
  exists v. split; [| split; [done |]].
  - apply (dict_of_pairs_last _ i).
    + by apply lookup_zip_Some.
    + intros j w Hij Hj. apply lookup_zip_Some in Hj as [Hj _].
      pose proof (NoDup_lookup _ _ _ _ Hnodup Hi Hj). lia.
  - destruct (query_model_cases (net i) model messages None stage) as (v' & Hv' & Hshape).
    rewrite Hcall in Hv'. injection Hv' as <-.
    destruct Hshape; [by apply Success_QueryResult | by apply Failure_QueryResult].
Qed.

(** ** Streaming completion dispatcher *)

Lemma next_done_nil pending : next_done pending = None → pending = [].
Proof.
  destruct pending as [|t rest]; [done |]. simpl.
  destruct (next_done rest) as [[u others]|]; [| done].
  by destruct (done_at u <? done_at t).
Qed.

(** The task taken next is one of the pending tasks, none of the others is
    done before it, and the others stay pending. *)
Lemma next_done_first pending t others :
  next_done pending = Some (t, others) →
  pending ≡ₚ t :: others ∧ Forall (by_completion t) others.
Proof.
  revert t others. induction pending as [|t0 rest IH]; intros t others; [done |].
  simpl. destruct (next_done rest) as [[u o]|] eqn:Hrest.
  - destruct (IH u o eq_refl) as [Hperm Hmin].
    destruct (done_at u <? done_at t0) eqn:Hlt; intros [= <- <-].
    + apply Nat.ltb_lt in Hlt. split.
      * rewrite Hperm. apply perm_swap.
      * constructor; [unfold by_completion; lia | done].
    + apply Nat.ltb_ge in Hlt. split; [done |].
      rewrite Hperm. constructor; [done |].
      eapply Forall_impl; [exact Hmin |].
      unfold by_completion. intros x Hx. simpl in Hx. lia.
  - apply next_done_nil in Hrest as ->. intros [= <- <-].
    split; [done | constructor].
Qed.

(** Draining a suspended generator whose tasks all return: every pending
    task is yielded once, in the order of completion, nothing more is sent
    and the generator ends. *)
Lemma async_for_suspended net pulls pending :
  Forall (λ t, ∃ v, returned (task_call t) = Ok v) pending →
  length pending < pulls →
  ∃ order,
    order ≡ₚ pending
    ∧ StronglySorted by_completion order
    ∧ Forall2 yields order (seen (async_for pulls net (Suspended pending)))
    ∧ requests (async_for pulls net (Suspended pending)) = []
    ∧ ended (async_for pulls net (Suspended pending)) = Exhausted.
Proof.
  revert pending. induction pulls as [|n IH]; intros pending Hret Hlen; [lia |].
  simpl. unfold resume.
  destruct (next_done pending) as [[t others]|] eqn:Hnext.
  - destruct (next_done_first _ _ _ Hnext) as [Hperm Hmin].
    rewrite Hperm in Hret. apply Forall_cons in Hret as [[v Hv] Hothers].
    assert (length others < n) as Hlen'.
    { apply Permutation_length in Hperm. simpl in Hperm. lia. }
    destruct (IH others Hothers Hlen') as (order & Hord & Hsorted & Hitems & Hreq & Hend).
    rewrite Hv. simpl. exists (t :: order).
    split; [by rewrite Hperm, Hord |].
    split; [constructor; [done | by rewrite Hord] |].
    split; [constructor; [done | done] |].
    by rewrite Hreq, Hend.
  - apply next_done_nil in Hnext as ->. simpl.
    exists []. repeat split; constructor.
Qed.

(** The first pull creates the tasks and sends their requests; from there
    on the generator goes as one suspended on all of them. *)
Lemma async_for_created net n models messages :
  let tasks := create_tasks net models messages in
  let run := async_for (S n) net (Created models messages) in
  let rest := async_for (S n) net (Suspended tasks) in
  seen run = seen rest
  ∧ ended run = ended rest
  ∧ requests run = concat ((sent ∘ task_call) <$> tasks) ++ requests rest.
Proof.
  simpl. unfold resume.
  destruct (next_done (create_tasks net models messages)) as [[t others]|]; simpl.
  - destruct (returned (task_call t)) as [v|e]; simpl; [done |].
    by rewrite app_nil_r.
  - by rewrite app_nil_r.
Qed.

Lemma create_tasks_models net models messages :
  task_model <$> create_tasks net models messages = models.
Proof.
  unfold create_tasks. revert net.
  induction models as [|model models IH]; intros net; [done |].
  rewrite imap_cons. simpl. f_equal. apply (IH (net ∘ S)).
Qed.

Lemma create_tasks_lookup net models messages i t :
  create_tasks net models messages !! i = Some t ↔
  ∃ model, models !! i = Some model
           ∧ t = query_with_name (net i) messages model.
Proof.
  unfold create_tasks. rewrite list_lookup_imap.
  destruct (models !! i) as [model|]; simpl; split.
  - intros [= <-]. by exists model.
  - by intros (? & [= <-] & ->).
  - done.
  - by intros (? & [=] & _).
Qed.

Lemma create_tasks_return net models messages :
  Forall (λ t, ∃ v, returned (task_call t) = Ok v) (create_tasks net models messages).
Proof.
  apply Forall_lookup_2. intros i t Ht.
  apply create_tasks_lookup in Ht as (model & _ & ->). simpl.
  destruct (query_model_cases (net i) model messages None None) as (v & Hv & _).
  by exists v.
Qed.

Lemma create_tasks_sent net models messages :
  concat ((sent ∘ task_call) <$> create_tasks net models messages)
  = (λ model, chat_request model messages) <$> models.
Proof.
  unfold create_tasks. rewrite list_fmap_compose, fmap_imap.
  by apply sent_imap.
Qed.

Lemma yields_models order items :
  Forall2 yields order items → items.*1 = task_model <$> order.
Proof.
  induction 1 as [|t item order items [Hm _] _ IH]; [done |].
  rewrite !fmap_cons. by rewrite Hm, IH.
Qed.

(** A whole run of the streaming dispatcher, for any list of models. *)
Lemma query_models_streaming_run net models messages pulls :
  length models < pulls →
  let run := async_for pulls net (query_models_streaming models messages).2 in
  ∃ order,
    order ≡ₚ create_tasks net models messages
    ∧ StronglySorted by_completion order
    ∧ Forall2 yields order (seen run)
    ∧ (seen run).*1 ≡ₚ models
    ∧ length (seen run) = length models
    ∧ requests run = (λ model, chat_request model messages) <$> models
    ∧ ended run = Exhausted.
Proof.
  intros Hlen. destruct pulls as [|n]; [lia |].
  change (query_models_streaming models messages).2 with (Created models messages).
  cbv zeta.
  destruct (async_for_created net n models messages) as (-> & -> & ->).
  destruct (async_for_suspended net (S n) (create_tasks net models messages))
    as (order & Hord & Hsorted & Hitems & -> & ->).
  { apply create_tasks_return. }
  { unfold create_tasks. rewrite length_imap. lia. }
  exists order. split; [done |]. split; [done |]. split; [done |].
  assert ((seen (async_for (S n) net (Suspended (create_tasks net models messages)))).*1
          ≡ₚ models) as Hmodels.
  { rewrite (yields_models _ _ Hitems), Hord. by rewrite create_tasks_models. }
  split; [done |]. split.
  { rewrite <- (length_fmap fst). by rewrite Hmodels. }
  split; [| done]. by rewrite app_nil_r, create_tasks_sent.
Qed.

(** In a list sorted by completion, a task done strictly before another
    stands before it. *)
Lemma sorted_before order t u :
  StronglySorted by_completion order →
  t ∈ order → u ∈ order → done_at t < done_at u →
  ∃ l1 l2 l3, order = l1 ++ t :: l2 ++ u :: l3.
Proof.
  intros Hsorted Ht Hu Hlt.
  apply list_elem_of_split in Hu as (k1 & k2 & ->).
  apply elem_of_app in Ht as [Ht | Ht].
  - apply list_elem_of_split in Ht as (l1 & l2 & ->).
    exists l1, l2, k2. by rewrite <- app_assoc.
  - pose proof (StronglySorted_app_1_r _ _ _ Hsorted) as Hk.
    apply StronglySorted_cons in Hk as [Hall _].
    apply elem_of_cons in Ht as [-> | Ht]; [lia |].
    rewrite Forall_forall in Hall. specialize (Hall t Ht).
    unfold by_completion in Hall. lia.
Qed.

Lemma StronglySorted_lookup {A} (R : relation A) (l : list A) p q a b :
  StronglySorted R l → p < q → l !! p = Some a → l !! q = Some b → R a b.
Proof.
  intros Hsorted. revert p q.
  induction Hsorted as [|x l _ IH Hall]; intros p q Hpq Hp Hq; [done |].
  destruct q as [|q]; [lia |]. destruct p as [|p]; simpl in Hp, Hq.
  - injection Hp as ->. rewrite Forall_forall in Hall. apply Hall.
    apply list_elem_of_lookup. by exists q.
  - apply (IH p q); [lia | done | done].
Qed.

(** A task is done when the exchange of its request ends. *)
Lemma done_at_elapsed (net : transport) messages model :
  done_at (query_with_name net messages model)
  = elapsed (net DEFAULT_TIMEOUT (chat_request model messages)).
Proof. reflexivity. Qed.

(** Where a yielded item comes from: the task at its place in the order of
    completion, created for some position of the list, whose model it names
    and whose response it carries. *)
Lemma yielded_item net models messages order items p item :
  order ≡ₚ create_tasks net models messages →
  Forall2 yields order items →
  items !! p = Some item →
  ∃ i, models !! i = Some item.1
       ∧ order !! p = Some (query_with_name (net i) messages item.1)
       ∧ returned (query_model (net i) item.1 messages None None) = Ok item.2.
Proof.
  intros Hord Hitems Hp.
  destruct (Forall2_lookup_r _ _ _ _ _ Hitems Hp) as (t & Ht & Hmodel & Hresponse).
  assert (t ∈ create_tasks net models messages) as Hin.
  { rewrite <- Hord. apply list_elem_of_lookup. by exists p. }
  apply list_elem_of_lookup in Hin as [i Hi].
  apply create_tasks_lookup in Hi as (model & Hi & ->).
  simpl in Hmodel, Hresponse. rewrite Hmodel. by exists i.
Qed.

(** C4. For a list of distinct models, a consumer that drains the stream
    sees exactly one item per model, no model twice and none left out.  Each
    item pairs a model of the list with what the executor returned for that
    model's own request, a QueryResult.  The items come in the order in
    which the exchanges end: an item yielded before another belongs to an
    exchange that ended no later, so the model whose exchange ends strictly
    first is yielded first, wherever the two stand in the input. *)
Theorem query_models_streaming_complete (net : network) (models : list string)
    (messages : list value) (pulls : nat) :
  NoDup models →
  length models < pulls →
  let run := async_for pulls net (query_models_streaming models messages).2 in
  let ends (i : nat) (model : string) : nat :=
    elapsed (net i DEFAULT_TIMEOUT (chat_request model messages)) in
  ended run = Exhausted
  ∧ length (seen run) = length models
  ∧ NoDup (seen run).*1
  ∧ (∀ model, model ∈ (seen run).*1 ↔ model ∈ models)
  ∧ (∀ item, item ∈ seen run →
       ∃ i, models !! i = Some item.1
            ∧ returned (query_model (net i) item.1 messages None None) = Ok item.2
            ∧ QueryResult item.2)
  ∧ (∀ p q item item' i j,
       p < q →
       seen run !! p = Some item → seen run !! q = Some item' →
       models !! i = Some item.1 → models !! j = Some item'.1 →
       ends i item.1 ≤ ends j item'.1)
  ∧ (∀ i j model model',
       models !! i = Some model → models !! j = Some model' →
       ends i model < ends j model' →
       ∃ p q, p < q
              ∧ (seen run).*1 !! p = Some model
              ∧ (seen run).*1 !! q = Some model')
  ∧ ∃ order,
      order ≡ₚ create_tasks net models messages
      ∧ Forall2 yields order (seen run)
      ∧ StronglySorted by_completion order
      ∧ ∀ t u, t ∈ order → u ∈ order → done_at t < done_at u →
          ∃ l1 l2 l3, order = l1 ++ t :: l2 ++ u :: l3.
Proof.
  intros Hnodup Hlen run ends.
  destruct (query_models_streaming_run net models messages pulls Hlen)
    as (order & Hord & Hsorted & Hitems & Hmodels & Hcount & _ & Hend).
  fold run in Hitems, Hmodels, Hcount, Hend.
  assert (∀ p q item item' i j,
            p < q →
            seen run !! p = Some item → seen run !! q = Some item' →
            models !! i = Some item.1 → models !! j = Some item'.1 →
            ends i item.1 ≤ ends j item'.1) as Hordered.
  { intros p q item item' i j Hpq Hp Hq Hi Hj.
    destruct (yielded_item _ _ _ _ _ _ _ Hord Hitems Hp) as (i' & Hi' & Htp & _).
    destruct (yielded_item _ _ _ _ _ _ _ Hord Hitems Hq) as (j' & Hj' & Htq & _).
    assert (i' = i) as -> by (by eapply NoDup_lookup).
    assert (j' = j) as -> by (by eapply NoDup_lookup).
    pose proof (StronglySorted_lookup _ _ _ _ _ _ Hsorted Hpq Htp Htq) as Hle.
    unfold by_completion in Hle. by rewrite !done_at_elapsed in Hle. }
  split; [done |]. split; [done |].
  split; [by rewrite Hmodels |].
  split; [intros model; by rewrite Hmodels |].
  split.
  { intros item Hin. apply list_elem_of_lookup in Hin as [p Hp].
    destruct (yielded_item _ _ _ _ _ _ _ Hord Hitems Hp) as (i & Hi & _ & Hret).
    exists i. split; [done |]. split; [done |].
    destruct (query_model_cases (net i) item.1 messages None None)
      as (v & Hv & Hshape).
    rewrite Hret in Hv. injection Hv as <-.
    destruct Hshape; [by apply Success_QueryResult | by apply Failure_QueryResult]. }
  split; [exact Hordered |].
  split.
  { intros i j model model' Hi Hj Hfirst.
    assert (model ∈ (seen run).*1) as Hin
      by (rewrite Hmodels; apply list_elem_of_lookup; by exists i).
    assert (model' ∈ (seen run).*1) as Hin'
      by (rewrite Hmodels; apply list_elem_of_lookup; by exists j).
    apply list_elem_of_lookup in Hin as [p Hp].
    apply list_elem_of_lookup in Hin' as [q Hq].
    exists p, q. split; [| done].
    pose proof Hp as Hp'. pose proof Hq as Hq'.
    rewrite list_lookup_fmap in Hp'. rewrite list_lookup_fmap in Hq'.
    destruct (seen run !! p) as [item|] eqn:Hitem; [| done].
    destruct (seen run !! q) as [item'|] eqn:Hitem'; [| done].
    injection Hp' as Hm. injection Hq' as Hm'.
    destruct (Nat.lt_trichotomy p q) as [Hlt | [Heq | Hgt]]; [done | |].
    - subst q. rewrite Hitem in Hitem'. injection Hitem' as <-.
      rewrite Hm in Hm'. subst model'.
      pose proof (NoDup_lookup _ _ _ _ Hnodup Hi Hj) as ->. lia.
    - rewrite <- Hm in Hi. rewrite <- Hm' in Hj.
      pose proof (Hordered q p item' item j i Hgt Hitem' Hitem Hj Hi) as Hle.
      rewrite Hm, Hm' in Hle. lia. }
  exists order. split; [done |]. split; [done |]. split; [done |].
  intros t u. by apply sorted_before.
Qed.

Lemma resume_sent reqs pending : pull_sent (resume reqs pending) = reqs.
Proof.
  unfold resume. destruct (next_done pending) as [[t others]|]; [| done].
  by destruct (returned (task_call t)).
Qed.

Lemma resume_next reqs pending models messages :
  pull_next (resume reqs pending) ≠ Created models messages.
Proof.
  unfold resume. destruct (next_done pending) as [[t others]|]; [| done].
  by destruct (returned (task_call t)).
Qed.

(** C5, as the code has it.  The call itself starts nothing: it returns the
    generator with no request sent.  The first pull starts everything: it
    sends the requests of all the models, in input order, before it yields
    its item.  No later pull sends anything: a generator that was pulled is
    never back in its initial state, and a suspended or finished generator
    sends nothing. *)
Theorem query_models_streaming_starts_on_first_pull (net : network)
    (models : list string) (messages : list value) :
  (query_models_streaming models messages).1 = []
  ∧ pull_sent (anext net (query_models_streaming models messages).2)
    = (λ model, chat_request model messages) <$> models
  ∧ (∀ gen models' messages', pull_next (anext net gen) ≠ Created models' messages')
  ∧ (∀ pending, pull_sent (anext net (Suspended pending)) = [])
  ∧ pull_sent (anext net Closed) = [].
Proof.
  split; [done |]. split.
  { simpl. by rewrite resume_sent, create_tasks_sent. }
  split.
  { intros [ms msgs | pending |] models' messages'; simpl;
      [apply resume_next | apply resume_next | done]. }
  split; [| done]. intros pending. simpl. apply resume_sent.
Qed.

(** C10. When the list repeats a model, the batch dispatcher still sends
    one request per list element, but its mapping has one entry per distinct
    model, fewer than the list is long, the entry of a model being the
    response of its last occurrence; the streaming dispatcher yields one
    item per list element, repeats included. *)
Theorem duplicate_models_collapse_in_batch_only (net : network)
    (models : list string) (messages : list value) (stage : option string)
    (pulls : nat) :
  ¬ NoDup models →
  length models < pulls →
  (∃ results,
     batch_returned (query_models_parallel net models messages stage) = Ok results
     ∧ length (batch_sent (query_models_parallel net models messages stage))
       = length models
     ∧ size results = size (list_to_set models : gset string)
     ∧ size results < length models
     ∧ ∀ i model, models !! i = Some model →
         (∀ j, i < j → models !! j ≠ Some model) →
         ∃ v, results !! model = Some v
              ∧ returned (query_model (net i) model messages None stage) = Ok v)
  ∧ (let run := async_for pulls net (query_models_streaming models messages).2 in
     ended run = Exhausted
     ∧ length (seen run) = length models
     ∧ (seen run).*1 ≡ₚ models).
Proof.
  intros Hdup Hlen. split.
  - destruct (query_models_parallel_returned net models messages stage)
      as (responses & Hret & Hlen' & Hown).
    exists (dict_of_pairs (zip models responses)).
    assert ((zip models responses).*1 = models) as Hkeys by (apply fst_zip; lia).
    split; [done |]. split.
    { by rewrite query_models_parallel_sent, length_fmap. }
    split; [by rewrite size_dict_of_pairs, Hkeys |].
    split.
    { rewrite size_dict_of_pairs, Hkeys. by apply size_list_to_set_lt. }
    intros i model Hi Hlast. destruct (Hown i model Hi) as (v & Hv & Hcall).
    exists v. split; [| done].
    apply (dict_of_pairs_last _ i).
    + by apply lookup_zip_Some.
    + intros j w Hij Hj. apply lookup_zip_Some in Hj as [Hj _].
      by apply (Hlast j Hij).
  - destruct (query_models_streaming_run net models messages pulls Hlen)
      as (order & _ & _ & _ & Hmodels & Hcount & _ & Hend).
    done.
Qed.

(** * Further properties *)

(** ** Single-query executor: causes and kinds *)

Lemma failure_error_type kind msg : error_type_of (failure kind msg) = Some kind.
Proof.
  unfold error_type_of. simpl.
  by rewrite lookup_insert_ne, lookup_insert_eq.
Qed.

Lemma success_error_type content reasoning_details :
  error_type_of (success content reasoning_details) = None.
Proof.
  unfold error_type_of. simpl.
  by rewrite lookup_insert_ne, lookup_singleton_ne.
Qed.

(** Reading a reply raises the status error of that very response, or an
    exception of none of the named classes. *)
Lemma read_reply_raises response e :
  read_reply response = Raise e →
  (e = HTTPStatusError response ∧ is_success response = false)
  ∨ named_class e = false.
Proof.
  unfold read_reply, raise_for_status.
  destruct (is_success response) eqn:Hstatus; simpl; [| intros [= <-]; by left].
  intros H. right. unfold Response_json in H.
  destruct (json_loads (text response)) as [data|]; simpl in H; [| by injection H as <-].
  destruct (getitem data (Key "choices")) as [choices|e1] eqn:E1; simpl in H;
    [| injection H as <-; by eapply getitem_raises].
  destruct (getitem choices (Index 0)) as [first|e2] eqn:E2; simpl in H;
    [| injection H as <-; by eapply getitem_raises].
  destruct (getitem first (Key "message")) as [message|e3] eqn:E3; simpl in H;
    [| injection H as <-; by eapply getitem_raises].
  destruct (method_get message "content") as [content|e4] eqn:E4; simpl in H;
    [| injection H as <-; by eapply method_get_raises].
  destruct (method_get message "reasoning_details") as [rd|e5] eqn:E5; simpl in H;
    [done | injection H as <-; by eapply method_get_raises].
Qed.

(** X1. The kind of a failure tells its cause: "connection" is returned
    only when the client raised ConnectError, "timeout" only when it raised
    TimeoutException, "http" only for a response whose status is no success
    (or a status error raised by the client itself); and a value without a
    kind is a success. *)
Theorem query_model_kind_tells_cause (net : transport) (model : string)
    (messages : list value) (timeout : option number) (stage : option string) :
  let x := net (default DEFAULT_TIMEOUT timeout) (chat_request model messages) in
  ∃ v, returned (query_model net model messages timeout stage) = Ok v
    ∧ (error_type_of v = Some "connection" →
         ∃ msg, outcome x = Raise (ConnectError msg))
    ∧ (error_type_of v = Some "timeout" →
         ∃ msg, outcome x = Raise (TimeoutException msg))
    ∧ (error_type_of v = Some "http" →
         ∃ response, (outcome x = Ok response ∧ is_success response = false)
                     ∨ outcome x = Raise (HTTPStatusError response))
    ∧ (error_type_of v = None ↔ Success v).
Proof.
  intros x. rewrite query_model_returned. unfold attempt. fold x.
  destruct (outcome x) as [response|e] eqn:Hout; simpl.
  - destruct (read_reply response) as [v|e] eqn:Hreply.
    + pose proof (read_reply_Success _ _ Hreply) as (c & rd & ->).
      exists (success c rd). rewrite success_error_type.
      repeat split; try done. by exists c, rd.
    + destruct (read_reply_raises _ _ Hreply) as [[-> Hstatus] | Hother].
      * eexists. split; [reflexivity |]. rewrite failure_error_type.
        repeat split; try done.
        -- intros _. exists response. by left.
        -- intros (c & rd & Heq). apply (f_equal (field "error")) in Heq.
           by rewrite failure_field_error, success_field_error in Heq.
      * destruct e; try discriminate Hother; simpl;
          (eexists; split; [reflexivity |]; rewrite failure_error_type;
           repeat split; try done;
           intros (c & rd & Heq); apply (f_equal (field "error")) in Heq;
           by rewrite failure_field_error, success_field_error in Heq).
  - destruct e; simpl;
      (eexists; split; [reflexivity |]; rewrite failure_error_type;
       repeat split; try done; try (intros _; by eexists);
       try (intros _; eexists; by right);
       intros (c & rd & Heq); apply (f_equal (field "error")) in Heq;
       by rewrite failure_field_error, success_field_error in Heq).
Qed.

(** X2. On a 2xx response the result is a success exactly when the body
    decodes to an object whose [choices] is a list that starts with an
    object holding an object under [message]; the success then carries that
    message's two fields.  In every other case (a body that does not decode,
    or decodes to another shape) the result is a failure of kind "unknown",
    never of another kind. *)
Theorem query_model_2xx_success_or_unknown (net : transport) (model : string)
    (messages : list value) (timeout : option number) (stage : option string)
    (response : Response) :
  let r := returned (query_model net model messages timeout stage) in
  outcome (net (default DEFAULT_TIMEOUT timeout) (chat_request model messages))
  = Ok response →
  (200 ≤ status_code response ≤ 299)%Z →
  match json_loads (text response) ≫= first_message with
  | Some message =>
      r = Ok (success (default VNone (message !! "content"))
                      (default VNone (message !! "reasoning_details")))
  | None =>
      ∃ e, named_class e = false ∧ r = Ok (failure "unknown" (str_exc e))
  end.
Proof.
  intros r Hout Hstatus. subst r.
  rewrite query_model_returned. unfold attempt. rewrite Hout. simpl.
  destruct (json_loads (text response)) as [data|] eqn:Hjson; simpl.
  - rewrite (read_reply_2xx _ _ Hstatus Hjson).
    destruct (first_message data) as [message|] eqn:Hshape.
    + by rewrite (first_message_reply _ _ Hshape).
    + destruct (no_first_message_reply _ Hshape) as (e & Hother & ->).
      exists e. split; [done |]. by destruct e.
  - unfold read_reply, raise_for_status, Response_json.
    rewrite (proj2 (is_success_2xx _) Hstatus), Hjson. simpl.
    by exists (JSONDecodeError (text response)).
Qed.

Lemma str_prefix_all n s : String.length s ≤ n → str_prefix n s = s.
Proof.
  revert s. induction n as [|n IH]; intros [|c s] Hlen; simpl in *; try done; [lia |].
  f_equal. apply IH. lia.
Qed.

Lemma str_prefix_prefix n m s : n ≤ m → str_prefix n (str_prefix m s) = str_prefix n s.
Proof.
  revert m s. induction n as [|n IH]; intros m s Hle; [by destruct (str_prefix m s) |].
  destruct m as [|m]; [lia |]. destruct s as [|c s]; [done |].
  simpl. f_equal. apply IH. lia.
Qed.

(** X3. The body excerpt in an "http" failure never exceeds 200
    characters: it is the start of the body, and the whole body when that
    has at most 200 characters. *)
Theorem query_model_http_excerpt (net : transport) (model : string)
    (messages : list value) (timeout : option number) (stage : option string)
    (response : Response) :
  outcome (net (default DEFAULT_TIMEOUT timeout) (chat_request model messages))
  = Ok response →
  is_success response = false →
  ∃ excerpt,
    returned (query_model net model messages timeout stage)
    = Ok (failure "http"
            ("HTTP " +:+ pretty (status_code response) +:+ ": " +:+ excerpt))
    ∧ String.length excerpt ≤ 200
    ∧ (∃ rest, text response = excerpt +:+ rest)
    ∧ (String.length (text response) ≤ 200 → excerpt = text response).
Proof.
  intros Hout Hstatus. exists (str_prefix 200 (text response)).
  rewrite query_model_returned, (attempt_status_error _ _ _ _ Hout Hstatus).
  destruct (str_prefix_spec 200 (text response)) as [Hrest Hlen].
  split; [done |]. split; [lia |]. split; [done |]. apply str_prefix_all.
Qed.

(** ** What the executor logs *)

(** X4. The executor logs at error level exactly when it returns a
    failure: one error call then, none on a success.  Before the request it
    logs one debug call when [stage] is a non-empty string and none
    otherwise; nothing else is logged. *)
Theorem query_model_logs_failures (net : transport) (model : string)
    (messages : list value) (timeout : option number) (stage : option string) :
  ∃ v errors,
    returned (query_model net model messages timeout stage) = Ok v
    ∧ query_model_log net model messages timeout stage
      = debug_line model stage ++ errors
    ∧ length (debug_line model stage) = (if truthy stage then 1 else 0)
    ∧ Forall (λ c, log_level c = DEBUG) (debug_line model stage)
    ∧ (Success v → errors = [])
    ∧ (Failure v → ∃ c, errors = [c] ∧ log_level c = ERROR).
Proof.
  rewrite query_model_returned. unfold query_model_log.
  assert (length (debug_line model stage) = (if truthy stage then 1 else 0)
          ∧ Forall (λ c, log_level c = DEBUG) (debug_line model stage))
    as [Hcount Hdebug].
  { destruct stage as [[|c s]|]; simpl; repeat constructor. }
  destruct (attempt net _ _) as [v|e] eqn:Hatt.
  - exists v, []. repeat split; try done.
    intros Hf. apply attempt_Success in Hatt.
    by destruct (Success_not_Failure v).
  - destruct (handle_Failure (default DEFAULT_TIMEOUT timeout) e) as (v & Hv & Hf).
    exists v, [handle_log model (default DEFAULT_TIMEOUT timeout) e].
    repeat split; try done.
    + intros Hs. by destruct (Success_not_Failure v).
    + intros _. eexists. split; [done |]. by destruct e.
Qed.

(** X5. For a response whose status is not 2xx, the error call
    carries the model, the status and the first 500 characters of the body
    (a prefix of the body, of 500 characters or of the whole body when that
    is shorter), and the excerpt in the returned message is the first 200
    characters of what was logged. *)
Theorem query_model_http_log_excerpt (net : transport) (model : string)
    (messages : list value) (timeout : option number) (stage : option string)
    (response : Response) :
  outcome (net (default DEFAULT_TIMEOUT timeout) (chat_request model messages))
  = Ok response →
  ¬ (200 ≤ status_code response ≤ 299)%Z →
  ∃ logged,
    query_model_log net model messages timeout stage
    = debug_line model stage
      ++ [mkLog ERROR "HTTP error querying model %s: Status %s. Response: %s"
            [model; pretty (status_code response); logged]]
    ∧ String.length logged = 500 `min` String.length (text response)
    ∧ (∃ rest, text response = logged +:+ rest)
    ∧ ∃ excerpt,
        returned (query_model net model messages timeout stage)
        = Ok (VDict {[ "error" := VBool true;
                       "error_type" := VStr "http";
                       "error_message" :=
                         VStr ("HTTP " +:+ pretty (status_code response) +:+ ": "
                               +:+ excerpt) ]})
        ∧ String.length excerpt = 200 `min` String.length logged
        ∧ ∃ rest, logged = excerpt +:+ rest.
Proof.
  intros Hout Hstatus%not_2xx. exists (str_prefix 500 (text response)).
  rewrite query_model_returned. unfold query_model_log.
  rewrite (attempt_status_error _ _ _ _ Hout Hstatus).
  destruct (str_prefix_spec 500 (text response)) as [Hrest Hlen].
  split; [done |]. split; [done |]. split; [done |].
  exists (str_prefix 200 (str_prefix 500 (text response))).
  destruct (str_prefix_spec 200 (str_prefix 500 (text response))) as [Hrest' Hlen'].
  split; [by rewrite str_prefix_prefix by lia |]. by split.
Qed.

(** ** Content builder: missing keys and what the output keeps *)

Lemma append_images_cons content (img : image) rest :
  append_images content (img :: rest)
  = match img !! "content" with
    | Some uri => append_images (content ++ [image_url_part uri]) rest
    | None => Raise (KeyError (VStr "content"))
    end.
Proof. simpl. unfold image_getitem. by destruct (img !! "content"). Qed.

Lemma image_uris_cons (img : image) rest :
  image_uris (Some (img :: rest)) = (img !! "content") :: image_uris (Some rest).
Proof. done. Qed.

Lemma append_images_cases content images :
  (Forall (λ img : image, is_Some (img !! "content")) images
   ∧ ∃ uris, image_uris (Some images) = Some <$> uris
             ∧ append_images content images
               = Ok (content ++ (image_url_part <$> uris)))
  ∨ (Exists (λ img : image, img !! "content" = None) images
     ∧ append_images content images = Raise (KeyError (VStr "content"))).
Proof.
  revert content. induction images as [|img rest IH]; intros content.
  - left. split; [constructor |]. exists []. by rewrite app_nil_r.
  - rewrite append_images_cons, image_uris_cons.
    destruct (img !! "content") as [uri|] eqn:Huri.
    + destruct (IH (content ++ [image_url_part uri]))
        as [(Hall & uris & Huris & Heq) | (Hex & Heq)].
      * left. split; [constructor; [by exists uri | done] |].
        exists (uri :: uris). rewrite Huris, Heq.
        by rewrite <- app_assoc.
      * right. split; [by apply Exists_cons_tl | done].
    + right. split; [by apply Exists_cons_hd | done].
Qed.

Lemma has_content_or_not (images : list image) :
  Forall (λ img : image, is_Some (img !! "content")) images →
  Exists (λ img : image, img !! "content" = None) images → False.
Proof.
  induction 1 as [|img rest [uri Huri] _ IH]; inversion 1; subst; [congruence | auto].
Qed.

(** X6. With images, the builder raises KeyError('content') exactly when
    some image dict has no ['content'] entry, and returns a content exactly
    when every image has one; ['filename'] is never needed. *)
Theorem build_message_content_raises_iff_content_missing (txt : string)
    (imgs : list image) :
  (Forall (λ img : image, is_Some (img !! "content")) imgs
   ↔ ∃ content, build_message_content txt (Some imgs) = Ok content)
  ∧ (Exists (λ img : image, img !! "content" = None) imgs
     ↔ build_message_content txt (Some imgs) = Raise (KeyError (VStr "content"))).
Proof.
  destruct imgs as [|img rest].
  { split; split.
    - intros _. by eexists.
    - intros _. constructor.
    - inversion 1.
    - done. }
  unfold build_message_content.
  destruct (append_images_cases [text_part txt] (img :: rest))
    as [(Hall & uris & _ & ->) | (Hex & ->)]; simpl.
  - split; (split; [intros H | intros H]); try done; try (by eexists).
    by destruct (has_content_or_not _ Hall).
  - split; (split; [intros H | intros H]); try done.
    + by destruct (has_content_or_not _ H).
    + by destruct H.
Qed.

Lemma build_message_content_returns txt images content :
  build_message_content txt images = Ok content →
  (image_uris images = [] ∧ content = VStr txt)
  ∨ ∃ uris, image_uris images = Some <$> uris
            ∧ content = VList (text_part txt :: (image_url_part <$> uris)).
Proof.
  destruct images as [[|img rest]|]; simpl; try (intros [= <-]; by left).
  destruct (append_images_cases [text_part txt] (img :: rest))
    as [(_ & uris & Huris & Heq) | (_ & Heq)];
    simpl in Heq; rewrite Heq; simpl; [| done].
  intros [= <-]. right. by exists uris.
Qed.

Lemma text_part_inj txt txt' : text_part txt = text_part txt' → txt = txt'.
Proof.
  intros Heq. apply (f_equal (field "text")) in Heq. simpl in Heq.
  rewrite !lookup_insert_ne, !lookup_singleton_eq in Heq by done.
  by injection Heq.
Qed.

#[local] Instance image_url_part_inj : Inj (=) (=) image_url_part.
Proof.
  intros uri uri' Heq.
  apply (f_equal (λ v, match field "image_url" v with
                       | Some inner => field "url" inner
                       | None => None
                       end)) in Heq.
  simpl in Heq.
  rewrite !lookup_insert_ne, !lookup_singleton_eq in Heq by done.
  simpl in Heq. rewrite !lookup_singleton_eq in Heq. by injection Heq.
Qed.

Lemma VList_cons_inj x y (l k : list value) :
  VList (x :: l) = VList (y :: k) → x = y ∧ l = k.
Proof. by intros [= -> ->]. Qed.

(** X7. The content keeps its inputs apart: two calls that return the
    same content were given the same text and images with the same
    ['content'] entries in the same order (absent and empty lists of images
    count as the same). *)
Theorem build_message_content_injective (txt txt' : string)
    (images images' : option (list image)) (content : value) :
  build_message_content txt images = Ok content →
  build_message_content txt' images' = Ok content →
  txt = txt' ∧ image_uris images = image_uris images'.
Proof.
  intros H H'.
  apply build_message_content_returns in H as [[Hu ->] | (uris & Hu & ->)];
    apply build_message_content_returns in H' as [[Hu' Heq] | (uris' & Hu' & Heq)];
    try discriminate Heq.
  - injection Heq as ->. by rewrite Hu, Hu'.
  - apply VList_cons_inj in Heq as [Htxt Hparts].
    apply text_part_inj in Htxt. apply (inj (fmap image_url_part)) in Hparts.
    by rewrite Hu, Hu', Hparts.
Qed.

(** ** Dispatchers: what an entry depends on *)

Lemma query_model_same_outcomes net net' model messages timeout stage stage' :
  same_outcomes net net' →
  returned (query_model net model messages timeout stage)
  = returned (query_model net' model messages timeout stage').
Proof.
  intros Hsame. rewrite !query_model_returned. unfold attempt.
  by rewrite Hsame.
Qed.

Lemma gather_imap_ext (f g : nat → string → call) models :
  (∀ i model, returned (f i model) = returned (g i model)) →
  gather (imap f models) = gather (imap g models).
Proof.
  revert f g. induction models as [|model models IH]; intros f g Hfg; [done |].
  rewrite !imap_cons. simpl. rewrite Hfg.
  by rewrite (IH (f ∘ S) (g ∘ S)) by (intros; apply Hfg).
Qed.

Lemma query_models_parallel_entry net models messages stage i model :
  models !! i = Some model →
  (∀ j, i < j → models !! j ≠ Some model) →
  ∃ results v,
    batch_returned (query_models_parallel net models messages stage) = Ok results
    ∧ results !! model = Some v
    ∧ returned (query_model (net i) model messages None stage) = Ok v.
Proof.
  intros Hi Hlast.
  destruct (query_models_parallel_returned net models messages stage)
    as (responses & Hret & Hlen & Hown).
  destruct (Hown i model Hi) as (v & Hv & Hcall).
  exists (dict_of_pairs (zip models responses)), v.
  split; [done |]. split; [| done].
  apply (dict_of_pairs_last _ i).
  - by apply lookup_zip_Some.
  - intros j w Hij Hj. apply lookup_zip_Some in Hj as [Hj _]. by apply (Hlast j Hij).
Qed.

(** X8. The batch does not depend on how long the exchanges take nor on
    the order in which they complete: two networks whose exchanges end the
    same way give the same mapping, whatever their timings. *)
Theorem query_models_parallel_ignores_timing (net net' : network)
    (models : list string) (messages : list value) (stage : option string) :
  (∀ i, same_outcomes (net i) (net' i)) →
  batch_returned (query_models_parallel net models messages stage)
  = batch_returned (query_models_parallel net' models messages stage).
Proof.
  intros Hsame. unfold query_models_parallel. simpl.
  rewrite (gather_imap_ext _
             (λ i model, query_model (net' i) model messages None stage)); [done |].
  intros i model. by apply query_model_same_outcomes.
Qed.

(** X9. In a batch over distinct models the entry of a model depends on
    its own exchange only: whatever happens to the requests of the other
    models (failures included), a model whose exchange ends the same way
    gets the same entry. *)
Theorem query_models_parallel_isolates_models (net net' : network)
    (models : list string) (messages : list value) (stage : option string)
    (i : nat) (model : string) :
  NoDup models →
  models !! i = Some model →
  same_outcomes (net i) (net' i) →
  ∃ results results' v,
    batch_returned (query_models_parallel net models messages stage) = Ok results
    ∧ batch_returned (query_models_parallel net' models messages stage) = Ok results'
    ∧ results !! model = Some v
    ∧ results' !! model = Some v.
Proof.
  intros Hnodup Hi Hsame.
  assert (∀ j, i < j → models !! j ≠ Some model) as Hlast.
  { intros j Hij Hj. pose proof (NoDup_lookup _ _ _ _ Hnodup Hi Hj). lia. }
  destruct (query_models_parallel_entry net models messages stage i model Hi Hlast)
    as (results & v & Hret & Hv & Hcall).
  destruct (query_models_parallel_entry net' models messages stage i model Hi Hlast)
    as (results' & v' & Hret' & Hv' & Hcall').
  rewrite (query_model_same_outcomes _ (net' i) _ _ _ _ stage Hsame) in Hcall.
  rewrite Hcall in Hcall'. injection Hcall' as <-.
  by exists results, results', v.
Qed.

(** ** Batch and stream together *)

Lemma dict_of_pairs_list_to_map pairs :
  dict_of_pairs pairs = list_to_map (reverse pairs).
Proof.
  induction pairs as [|[k v] pairs IH] using rev_ind; [done |].
  by rewrite dict_of_pairs_snoc, reverse_snoc, list_to_map_cons, IH.
Qed.

(** With distinct keys the dict does not depend on the order of the pairs. *)
Lemma dict_of_pairs_perm pairs pairs' :
  NoDup pairs.*1 → pairs ≡ₚ pairs' → dict_of_pairs pairs = dict_of_pairs pairs'.
Proof.
  intros Hnodup Hperm. rewrite !dict_of_pairs_list_to_map.
  apply list_to_map_proper.
  - by rewrite fmap_reverse, reverse_Permutation.
  - by rewrite !reverse_Permutation.
Qed.

Lemma yields_task_item order items :
  Forall2 yields order items → items = task_item <$> order.
Proof.
  induction 1 as [|t [m v] order items [Hm Hv] _ IH]; [done |].
  simpl in Hm, Hv. rewrite fmap_cons. unfold task_item at 1.
  by rewrite Hv, <- Hm, IH.
Qed.

Lemma zip_models_responses net models messages stage responses :
  length responses = length models →
  (∀ i model, models !! i = Some model →
     ∃ v, responses !! i = Some v
          ∧ returned (query_model (net i) model messages None stage) = Ok v) →
  zip models responses = task_item <$> create_tasks net models messages.
Proof.
  intros Hlen Hown. apply list_eq. intros i.
  unfold create_tasks. rewrite list_lookup_fmap, list_lookup_imap.
  destruct (models !! i) as [model|] eqn:Hi; simpl.
  - destruct (Hown i model Hi) as (v & Hv & Hcall).
    unfold task_item, query_with_name. cbn [task_model task_call].
    rewrite (query_model_same_outcomes _ (net i) _ _ _ _ stage) by done.
    rewrite Hcall. by apply lookup_zip_Some.
  - apply lookup_zip_None. by left.
Qed.

(** X10. For distinct models the two dispatchers agree: collecting the
    items of a drained stream into a dict gives the mapping that the batch
    dispatcher returns for the same models and messages. *)
Theorem stream_collects_to_batch (net : network) (models : list string)
    (messages : list value) (stage : option string) (pulls : nat) :
  NoDup models →
  length models < pulls →
  batch_returned (query_models_parallel net models messages stage)
  = Ok (dict_of_pairs
          (seen (async_for pulls net (query_models_streaming models messages).2))).
Proof.
  intros Hnodup Hpulls.
  destruct (query_models_parallel_returned net models messages stage)
    as (responses & -> & Hlen & Hown).
  destruct (query_models_streaming_run net models messages pulls Hpulls)
    as (order & Hord & _ & Hitems & _).
  f_equal. apply yields_task_item in Hitems. rewrite Hitems.
  rewrite (zip_models_responses net models messages stage responses Hlen Hown).
  apply dict_of_pairs_perm.
  - rewrite <- (zip_models_responses net models messages stage responses Hlen Hown).
    by rewrite fst_zip by lia.
  - by rewrite Hord.
Qed.

(** ** A stream that is not drained *)

Lemma async_for_prefix net k j gen :
  seen (async_for k net gen) = take k (seen (async_for (k + j) net gen)).
Proof.
  revert gen. induction k as [|k IH]; intros gen; [done |].
  change (S k + j) with (S (k + j)). cbn [async_for]. cbv zeta.
  destruct (pull_item (anext net gen)) as [[item|]|e]; cbn [seen]; [| done | done].
  rewrite (IH (pull_next (anext net gen))). done.
Qed.

Lemma async_for_suspended_requests net k pending :
  requests (async_for k net (Suspended pending)) = [].
Proof.
  revert pending. induction k as [|k IH]; intros pending; [done |].
  cbn [async_for anext]. cbv zeta. unfold resume.
  destruct (next_done pending) as [[t others]|]; [| done].
  destruct (returned (task_call t)) as [v|e]; [| done].
  cbn [pull_item pull_next pull_sent requests]. apply IH.
Qed.

(** X11. A consumer that stops after some pulls has received the start
    of what a longer run yields, that is the items of the tasks done first,
    one per pull while there are any; and from the first pull on all the
    requests have been sent, however few items are taken. *)
Theorem stream_abandoned_early (net : network) (models : list string)
    (messages : list value) (k j : nat) :
  let gen := (query_models_streaming models messages).2 in
  seen (async_for k net gen) = take k (seen (async_for (k + j) net gen))
  ∧ length (seen (async_for k net gen)) = k `min` length models
  ∧ requests (async_for (S k) net gen)
    = (λ model, chat_request model messages) <$> models.
Proof.
  intros gen. split; [apply async_for_prefix |]. split.
  - rewrite (async_for_prefix net k (S (length models)) gen), length_take.
    destruct (query_models_streaming_run net models messages (k + S (length models)))
      as (_ & _ & _ & _ & _ & Hcount & _); [lia |].
    subst gen. by rewrite Hcount.
  - subst gen.
    change (query_models_streaming models messages).2 with (Created models messages).
    destruct (async_for_created net k models messages) as (_ & _ & ->).
    by rewrite async_for_suspended_requests, app_nil_r, create_tasks_sent.
Qed.

(** ** The timeout of dispatched requests *)

Lemma query_model_timed_out net model messages stage msg :
  outcome (net DEFAULT_TIMEOUT (chat_request model messages))
  = Raise (TimeoutException msg) →
  returned (query_model net model messages None stage)
  = Ok (failure "timeout"
          ("Request timed out after " +:+ format_number DEFAULT_TIMEOUT +:+ "s")).
Proof.
  intros Hout. rewrite query_model_returned. simpl.
  by rewrite (attempt_raised _ _ _ _ Hout).
Qed.

(** X12. The dispatchers pass no timeout, so every dispatched request
    runs under DEFAULT_TIMEOUT: when the exchange of a model times out
    under it, the batch entry of that model (taken from its last occurrence
    in the list) and the item the stream yields for it are the "timeout"
    failure that quotes DEFAULT_TIMEOUT. *)
Theorem dispatchers_use_default_timeout (net : network) (models : list string)
    (messages : list value) (stage : option string) (pulls i : nat)
    (model msg : string) :
  models !! i = Some model →
  (∀ j, i < j → models !! j ≠ Some model) →
  length models < pulls →
  outcome (net i DEFAULT_TIMEOUT (chat_request model messages))
  = Raise (TimeoutException msg) →
  let timed_out :=
    failure "timeout"
      ("Request timed out after " +:+ format_number DEFAULT_TIMEOUT +:+ "s") in
  (∃ results,
     batch_returned (query_models_parallel net models messages stage) = Ok results
     ∧ results !! model = Some timed_out)
  ∧ (model, timed_out)
    ∈ seen (async_for pulls net (query_models_streaming models messages).2).
Proof.
  intros Hi Hlast Hpulls Hout timed_out. split.
  - destruct (query_models_parallel_entry net models messages stage i model Hi Hlast)
      as (results & v & Hret & Hv & Hcall).
    rewrite (query_model_timed_out _ _ _ _ _ Hout) in Hcall. injection Hcall as <-.
    by exists results.
  - destruct (query_models_streaming_run net models messages pulls Hpulls)
      as (order & Hord & _ & Hitems & _).
    rewrite (yields_task_item _ _ Hitems).
    apply (list_elem_of_fmap_2' _ _ (query_with_name (net i) messages model)).
    + rewrite Hord. apply list_elem_of_lookup. exists i.
      apply create_tasks_lookup. by exists model.
    + unfold task_item, query_with_name. cbn [task_model task_call].
      by rewrite (query_model_timed_out _ _ _ _ _ Hout).
Qed.

End Client.

(** * The sample backend at work *)

Local Abbreviation sample_query_model :=
  (query_model sample_host sample_timeout sample_json_loads sample_str).
Local Abbreviation sample_parallel :=
  (query_models_parallel sample_host sample_timeout sample_json_loads sample_str).
Local Abbreviation sample_async_for :=
  (async_for sample_host sample_timeout sample_json_loads sample_str).
Local Abbreviation sample_anext :=
  (anext sample_host sample_timeout sample_json_loads sample_str).

(** A refused connection comes back as a failure value. *)
Lemma query_model_never_raises_witness :
  ∃ v, returned (sample_query_model (sample_net 3) "d" [] None None) = Ok v
       ∧ Failure v
       ∧ field "error" v = Some (VBool true)
       ∧ field "content" v = None.
Proof.
  pose proof (query_model_never_raises sample_host sample_timeout sample_json_loads
                sample_str (sample_net 3) "d" [] None None) as H.
  cbv zeta in H. destruct H as (v & Hv & _ & _ & Hraised & _ & _ & Hfields & _).
  assert (Failure v) as Hf
    by exact (Hraised (ConnectError "All connection attempts failed") eq_refl).
  destruct (Hfields Hf) as (Herror & _ & _ & Hcontent & _).
  exists v. split; [exact Hv |]. split; [exact Hf |]. split; [exact Herror | exact Hcontent].
Defined.

(** The four kinds of failure, on backends 3, 1 and 4 of the sample network
    and on a backend whose error body is longer than the excerpt. *)
Lemma query_model_failure_taxonomy_witness :
  returned (sample_query_model (sample_net 3) "d" [] None None)
  = Ok (failure "connection" "Cannot connect to llama.cpp server")
  ∧ (¬ (200 ≤ 502 ≤ 299)%Z
     ∧ ∃ excerpt rest,
         returned (sample_query_model (verbose_net 0) "c" [] None None)
         = Ok (failure "http" ("HTTP 502: " +:+ excerpt))
         ∧ filler 600 = excerpt +:+ rest
         ∧ String.length excerpt = 200)
  ∧ returned (sample_query_model (sample_net 1) "b" [] (Some (Int 30)) None)
    = Ok (failure "timeout" "Request timed out after 30s")
  ∧ returned (sample_query_model (sample_net 4) "e" [] None None)
    = Ok (failure "unknown" "'choices'").
Proof.
  assert (¬ (200 ≤ 502 ≤ 299)%Z) as Hstatus by lia.
  split; [| split; [| split]].
  - pose proof (query_model_failure_taxonomy sample_host sample_timeout
                  sample_json_loads sample_str (sample_net 3) "d" [] None None) as H.
    cbv zeta in H. destruct H as (H & _).
    exact (H "All connection attempts failed" eq_refl).
  - split; [exact Hstatus |].
    pose proof (query_model_failure_taxonomy sample_host sample_timeout
                  sample_json_loads sample_str (verbose_net 0) "c" [] None None) as H.
    cbv zeta in H. destruct H as (_ & H & _).
    exact (H (mkResponse 502 (filler 600)) eq_refl Hstatus).
  - pose proof (query_model_failure_taxonomy sample_host sample_timeout
                  sample_json_loads sample_str (sample_net 1) "b" []
                  (Some (Int 30)) None) as H.
    cbv zeta in H. destruct H as (_ & _ & H & _).
    exact (H "ReadTimeout" eq_refl).
  - pose proof (query_model_failure_taxonomy sample_host sample_timeout
                  sample_json_loads sample_str (sample_net 4) "e" [] None None) as H.
    cbv zeta in H. destruct H as (_ & _ & _ & _ & _ & H & _).
    exact (H (KeyError (VStr "choices")) eq_refl eq_refl).
Defined.


(** Two image records. *)
Lemma build_message_content_shape_witness :
  Forall (λ img : image, is_Some (img !! "content") ∧ is_Some (img !! "filename"))
    [photo; scan]
  ∧ ∃ parts,
      build_message_content "hi" (Some [photo; scan])
      = Ok (VList (VDict {[ "type" := VStr "text"; "text" := VStr "hi" ]} :: parts))
      ∧ length parts = 2
      ∧ Forall2 (λ (img : image) (part : value),
                   ∃ uri, img !! "content" = Some uri
                          ∧ part = VDict {[ "type" := VStr "image_url";
                                            "image_url" :=
                                              VDict {[ "url" := VStr uri ]} ]})
          [photo; scan] parts.
Proof.
  assert (Forall (λ img : image,
                    is_Some (img !! "content") ∧ is_Some (img !! "filename"))
            [photo; scan]) as Hrec.
  { repeat constructor; eexists; reflexivity. }
  split; [exact Hrec |].
  assert ([photo; scan] ≠ []) as Hne by discriminate.
  exact (proj1 (proj2 (build_message_content_shape "hi" (Some [photo; scan]))
                  [photo; scan] eq_refl Hne Hrec)).
Defined.

Lemma build_message_content_total_witness :
  (∀ imgs, Some [photo; scan] = Some imgs → Forall image_record imgs)
  ∧ ∃ content, build_message_content "hi" (Some [photo; scan]) = Ok content.
Proof.
  assert (∀ imgs, Some [photo; scan] = Some imgs → Forall image_record imgs) as Hrec.
  { intros imgs [= <-]. repeat constructor; eexists; reflexivity. }
  split; [exact Hrec |].
  destruct (build_message_content_total "hi" (Some [photo; scan]) Hrec)
    as (content & Hcontent & _).
  exists content. exact Hcontent.
Defined.

(** The batch over two distinct models. *)
Lemma query_models_parallel_complete_witness :
  NoDup ["a"; "b"]
  ∧ ∃ results,
      batch_returned (sample_parallel sample_net ["a"; "b"] [] None) = Ok results
      ∧ size results = 2
      ∧ dom results = list_to_set ["a"; "b"].
Proof.
  assert (NoDup ["a"; "b"]) as Hnodup
    by exact (bool_decide_unpack (NoDup ["a"; "b"]) I).
  split; [exact Hnodup |].
  destruct (query_models_parallel_complete sample_host sample_timeout
              sample_json_loads sample_str sample_net ["a"; "b"] [] None Hnodup)
    as [(results & Hret & Hsize & Hdom & _) _].
  exists results. split; [exact Hret |]. split; [exact Hsize | exact Hdom].
Defined.

(** The stream over two distinct models, drained in three pulls: "b" is
    listed first, "a" answers first and is yielded first. *)
Lemma query_models_streaming_complete_witness :
  NoDup ["b"; "a"]
  ∧ length ["b"; "a"] < 3
  ∧ ended (sample_async_for 3 swapped_net (query_models_streaming ["b"; "a"] []).2)
    = Exhausted
  ∧ length (seen (sample_async_for 3 swapped_net
                    (query_models_streaming ["b"; "a"] []).2)) = 2
  ∧ ∃ p q, p < q
      ∧ (seen (sample_async_for 3 swapped_net
                 (query_models_streaming ["b"; "a"] []).2)).*1 !! p = Some "a"
      ∧ (seen (sample_async_for 3 swapped_net
                 (query_models_streaming ["b"; "a"] []).2)).*1 !! q = Some "b".
Proof.
  assert (NoDup ["b"; "a"]) as Hnodup
    by exact (bool_decide_unpack (NoDup ["b"; "a"]) I).
  assert (length ["b"; "a"] < 3) as Hpulls by (simpl; lia).
  split; [exact Hnodup |]. split; [exact Hpulls |].
  pose proof (query_models_streaming_complete sample_host sample_timeout
                sample_json_loads sample_str swapped_net ["b"; "a"] [] 3
                Hnodup Hpulls) as H.
  cbv zeta in H. destruct H as (Hend & Hcount & _ & _ & _ & _ & Hfirst & _).
  split; [exact Hend |]. split; [exact Hcount |].
  apply (Hfirst 1 0 "a" "b"); [reflexivity | reflexivity |].
  simpl. lia.
Defined.

(** A list that names model "a" twice. *)
Lemma duplicate_models_collapse_in_batch_only_witness :
  ¬ NoDup ["a"; "b"; "a"]
  ∧ length ["a"; "b"; "a"] < 4
  ∧ (∃ results,
       batch_returned (sample_parallel sample_net ["a"; "b"; "a"] [] None) = Ok results
       ∧ length (batch_sent (sample_parallel sample_net ["a"; "b"; "a"] [] None)) = 3
       ∧ size results < 3)
  ∧ length (seen (sample_async_for 4 sample_net
                    (query_models_streaming ["a"; "b"; "a"] []).2)) = 3.
Proof.
  assert (¬ NoDup ["a"; "b"; "a"]) as Hdup
    by exact (bool_decide_unpack (¬ NoDup ["a"; "b"; "a"]) I).
  assert (length ["a"; "b"; "a"] < 4) as Hpulls by (simpl; lia).
  split; [exact Hdup |]. split; [exact Hpulls |].
  destruct (duplicate_models_collapse_in_batch_only sample_host sample_timeout
              sample_json_loads sample_str sample_net ["a"; "b"; "a"] [] None 4
              Hdup Hpulls)
    as [(results & Hret & Hsent & _ & Hfewer & _) (_ & Hcount & _)].
  split; [| exact Hcount].
  exists results. split; [exact Hret |]. split; [exact Hsent | exact Hfewer].
Defined.

(** C5 as the specification words it does not hold: the call for one model
    returns with no request started, not with that model's request. *)
Lemma query_models_streaming_call_starts_nothing :
  ¬ (∀ (models : list string) (messages : list value),
       length (query_models_streaming models messages).1 = length models).
Proof. intros Hall. specialize (Hall ["a"] []). discriminate Hall. Qed.

(** ** Instances of the further properties *)

Local Abbreviation sample_log :=
  (query_model_log sample_host sample_timeout sample_json_loads sample_str
     sample_type_name).

Lemma query_model_2xx_success_or_unknown_witness :
  outcome (sample_net 0 sample_timeout (chat_request sample_host "a" []))
  = Ok (mkResponse 200 "hello-reply")
  ∧ (200 ≤ 200 ≤ 299)%Z
  ∧ returned (sample_query_model (sample_net 0) "a" [] None None)
    = Ok (success (VStr "hello") VNone).
Proof.
  assert (200 ≤ 200 ≤ 299)%Z as Hstatus by lia.
  split; [reflexivity |]. split; [exact Hstatus |].
  exact (query_model_2xx_success_or_unknown sample_host sample_timeout
           sample_json_loads sample_str (sample_net 0) "a" [] None None
           (mkResponse 200 "hello-reply") eq_refl Hstatus).
Defined.

Lemma query_model_http_excerpt_witness :
  outcome (sample_net 2 sample_timeout (chat_request sample_host "c" []))
  = Ok (mkResponse 500 "Internal Server Error")
  ∧ is_success (mkResponse 500 "Internal Server Error") = false
  ∧ ∃ excerpt,
      returned (sample_query_model (sample_net 2) "c" [] None None)
      = Ok (failure "http" ("HTTP " +:+ pretty 500%Z +:+ ": " +:+ excerpt))
      ∧ String.length excerpt ≤ 200.
Proof.
  split; [reflexivity |]. split; [reflexivity |].
  destruct (query_model_http_excerpt sample_host sample_timeout sample_json_loads
              sample_str (sample_net 2) "c" [] None None
              (mkResponse 500 "Internal Server Error") eq_refl eq_refl)
    as (excerpt & Hret & Hlen & _).
  exists excerpt. split; [exact Hret | exact Hlen].
Defined.

Lemma query_model_http_log_excerpt_witness :
  outcome (verbose_net 0 sample_timeout (chat_request sample_host "c" []))
  = Ok (mkResponse 502 (filler 600))
  ∧ ¬ (200 ≤ 502 ≤ 299)%Z
  ∧ ∃ logged,
      sample_log (verbose_net 0) "c" [] None (Some "STAGE1")
      = [mkLog DEBUG "[%s] Querying model: %s" ["STAGE1"; "c"];
         mkLog ERROR "HTTP error querying model %s: Status %s. Response: %s"
           ["c"; "502"; logged]]
      ∧ String.length logged = 500
      ∧ ∃ rest, filler 600 = logged +:+ rest.
Proof.
  assert (¬ (200 ≤ 502 ≤ 299)%Z) as Hstatus by lia.
  split; [reflexivity |]. split; [exact Hstatus |].
  destruct (query_model_http_log_excerpt sample_host sample_timeout
              sample_json_loads sample_str sample_type_name (verbose_net 0) "c" []
              None (Some "STAGE1") (mkResponse 502 (filler 600))
              eq_refl Hstatus)
    as (logged & Hlog & Hlen & Hrest & _).
  exists logged. split; [exact Hlog |]. split; [exact Hlen | exact Hrest].
Defined.

Lemma build_message_content_injective_witness :
  build_message_content "hi" (Some [photo; scan])
  = Ok (VList [text_part "hi"; image_url_part "data:1"; image_url_part "data:2"])
  ∧ build_message_content "hi" (Some [renamed_photo; scan])
    = Ok (VList [text_part "hi"; image_url_part "data:1"; image_url_part "data:2"])
  ∧ image_uris (Some [photo; scan]) = image_uris (Some [renamed_photo; scan]).
Proof.
  assert (build_message_content "hi" (Some [photo; scan])
          = Ok (VList [text_part "hi"; image_url_part "data:1"; image_url_part "data:2"]))
    as H1 by (vm_compute; reflexivity).
  assert (build_message_content "hi" (Some [renamed_photo; scan])
          = Ok (VList [text_part "hi"; image_url_part "data:1"; image_url_part "data:2"]))
    as H2 by (vm_compute; reflexivity).
  split; [exact H1 |]. split; [exact H2 |].
  exact (proj2 (build_message_content_injective "hi" "hi" (Some [photo; scan])
                  (Some [renamed_photo; scan]) _ H1 H2)).
Defined.

Lemma query_models_parallel_ignores_timing_witness :
  (∀ i, same_outcomes (sample_net i) (slow_net i))
  ∧ batch_returned (sample_parallel sample_net ["a"; "b"; "c"] [] None)
    = batch_returned (sample_parallel slow_net ["a"; "b"; "c"] [] None).
Proof.
  assert (∀ i, same_outcomes (sample_net i) (slow_net i)) as Hsame
    by (intros i timeout req; reflexivity).
  split; [exact Hsame |].
  exact (query_models_parallel_ignores_timing sample_host sample_timeout
           sample_json_loads sample_str sample_net slow_net ["a"; "b"; "c"] [] None
           Hsame).
Defined.

Lemma query_models_parallel_isolates_models_witness :
  NoDup ["a"; "b"]
  ∧ ["a"; "b"] !! 0 = Some "a"
  ∧ same_outcomes (sample_net 0) (broken_net 0)
  ∧ ∃ results results' v,
      batch_returned (sample_parallel sample_net ["a"; "b"] [] None) = Ok results
      ∧ batch_returned (sample_parallel broken_net ["a"; "b"] [] None) = Ok results'
      ∧ results !! "a" = Some v
      ∧ results' !! "a" = Some v.
Proof.
  assert (NoDup ["a"; "b"]) as Hnodup
    by exact (bool_decide_unpack (NoDup ["a"; "b"]) I).
  assert (same_outcomes (sample_net 0) (broken_net 0)) as Hsame
    by (intros timeout req; reflexivity).
  split; [exact Hnodup |]. split; [reflexivity |]. split; [exact Hsame |].
  exact (query_models_parallel_isolates_models sample_host sample_timeout
           sample_json_loads sample_str sample_net broken_net ["a"; "b"] [] None
           0 "a" Hnodup eq_refl Hsame).
Defined.

Lemma stream_collects_to_batch_witness :
  NoDup ["a"; "b"; "c"]
  ∧ length ["a"; "b"; "c"] < 4
  ∧ batch_returned (sample_parallel sample_net ["a"; "b"; "c"] [] None)
    = Ok (dict_of_pairs
            (seen (sample_async_for 4 sample_net
                     (query_models_streaming ["a"; "b"; "c"] []).2))).
Proof.
  assert (NoDup ["a"; "b"; "c"]) as Hnodup
    by exact (bool_decide_unpack (NoDup ["a"; "b"; "c"]) I).
  assert (length ["a"; "b"; "c"] < 4) as Hpulls by (simpl; lia).
  split; [exact Hnodup |]. split; [exact Hpulls |].
  exact (stream_collects_to_batch sample_host sample_timeout sample_json_loads
           sample_str sample_net ["a"; "b"; "c"] [] None 4 Hnodup Hpulls).
Defined.

(** One pull out of three models: the fastest one, and three requests. *)
Example scenario_one_pull :
  seen (sample_async_for 1 sample_net (query_models_streaming ["a"; "b"; "c"] []).2)
  = [("c", failure "http" "HTTP 500: Internal Server Error")]
  ∧ length (requests (sample_async_for 1 sample_net
                        (query_models_streaming ["a"; "b"; "c"] []).2)) = 3.
Proof. split; vm_compute; reflexivity. Qed.

Lemma dispatchers_use_default_timeout_witness :
  ["a"; "b"] !! 1 = Some "b"
  ∧ (∀ j, 1 < j → ["a"; "b"] !! j ≠ Some "b")
  ∧ length ["a"; "b"] < 3
  ∧ outcome (sample_net 1 sample_timeout (chat_request sample_host "b" []))
    = Raise (TimeoutException "ReadTimeout")
  ∧ ("b", failure "timeout" "Request timed out after 120.0s")
    ∈ seen (sample_async_for 3 sample_net (query_models_streaming ["a"; "b"] []).2).
Proof.
  assert (∀ j, 1 < j → ["a"; "b"] !! j ≠ Some "b") as Hlast.
  { intros [|[|j]] Hj; [lia | lia | discriminate]. }
  assert (length ["a"; "b"] < 3) as Hpulls by (simpl; lia).
  split; [reflexivity |]. split; [exact Hlast |]. split; [exact Hpulls |].
  split; [reflexivity |].
  exact (proj2 (dispatchers_use_default_timeout sample_host sample_timeout
                  sample_json_loads sample_str sample_net ["a"; "b"] [] None 3 1
                  "b" "ReadTimeout" eq_refl Hlast Hpulls eq_refl)).
Defined.

(** ** The scenarios of the specification *)

(** Models "a" and "b": "a" answers hello after 50 ticks, "b" times out. *)
Example scenario_batch :
  batch_returned (sample_parallel sample_net ["a"; "b"] [] None)
  = Ok {[ "a" := success (VStr "hello") VNone;
          "b" := failure "timeout" "Request timed out after 120.0s" ]}.
Proof. vm_compute. reflexivity. Qed.

Example scenario_stream :
  seen (sample_async_for 3 sample_net (query_models_streaming ["a"; "b"] []).2)
  = [("a", success (VStr "hello") VNone);
     ("b", failure "timeout" "Request timed out after 120.0s")].
Proof. vm_compute. reflexivity. Qed.

(** The same two backends with "b" listed first: "a" is still yielded first. *)
Example scenario_stream_input_order :
  seen (sample_async_for 3 swapped_net (query_models_streaming ["b"; "a"] []).2)
  = [("a", success (VStr "hello") VNone);
     ("b", failure "timeout" "Request timed out after 120.0s")].
Proof. vm_compute. reflexivity. Qed.

Example scenario_empty :
  sample_parallel sample_net [] [] None = mkBatch [] (Ok ∅)
  ∧ sample_async_for 1 sample_net (query_models_streaming [] []).2
    = mkConsumed [] [] Exhausted.
Proof. split; reflexivity. Qed.

(** The first pull sends both requests, the second none. *)
Example scenario_first_pull :
  url <$> pull_sent (sample_anext sample_net (query_models_streaming ["a"; "b"] []).2)
  = ["http://localhost:8080/v1/chat/completions";
     "http://localhost:8080/v1/chat/completions"]
  ∧ pull_sent (sample_anext sample_net
                 (pull_next (sample_anext sample_net
                               (query_models_streaming ["a"; "b"] []).2))) = [].
Proof. split; vm_compute; reflexivity. Qed.

(** An image dict without ['content'] makes the builder raise. *)
Example image_without_content :
  build_message_content "hi" (Some [photo; {[ "filename" := "c.png" ]}])
  = Raise (KeyError (VStr "content")).
Proof. vm_compute. reflexivity. Qed.
